(** * WealthwiseAI: the transaction ingestion and reconciliation pipeline

    A shallow embedding of the ledger-mutating operations of [App.tsx]
    ([handleBulkImport], [confirmTransactions], [deleteAccount],
    [handleTransfer], the ledger's delete button and edit modal,
    [processSmartEntry]) and of the extraction adapter
    [parseNaturalLanguageInput] of [services/geminiService.ts].

    Modelling conventions.
    - React state is an explicit record [State]; a handler is a function
      from the state at the time of the click to the state after its setters
      have run.  A handler that can raise returns an [outcome].
    - A JavaScript [number] is an exact rational or [NaN] (see [number]);
      rounding of IEEE doubles and the infinities are outside the model.
    - Strings are byte strings; [toLowerCase] and [trim] act on ASCII.
    - The clock, the random source and the generative service are inputs. *)

From Stdlib Require Import QArith Lqa ZArith String Ascii DecimalString.
From Stdlib Require Import DecimalZ DecimalPos.
From stdpp Require Import base option list strings.

Open Scope string_scope.
Open Scope nat_scope.

(** ** JavaScript numbers *)

Module Number.

Inductive number : Type :=
| Num (q : Q)
| NaN.

(** [x + y] *)
Definition add (x y : number) : number :=
  match x, y with
  | Num p, Num q => Num (p + q)
  | _, _ => NaN
  end.

(** [x - y] *)
Definition sub (x y : number) : number :=
  match x, y with
  | Num p, Num q => Num (p - q)
  | _, _ => NaN
  end.

(** Unary minus. *)
Definition neg (x : number) : number :=
  match x with
  | Num p => Num (- p)
  | NaN => NaN
  end.

(** [ToBoolean]: [0] and [NaN] are falsy. *)
Definition truthy (x : number) : bool :=
  match x with
  | Num p => negb (Qeq_bool p 0)
  | NaN => false
  end.

(** Same numeric value: rationals up to [Qeq]; [NaN] only with [NaN]. *)
Definition same (x y : number) : Prop :=
  match x, y with
  | Num p, Num q => (p == q)%Q
  | NaN, NaN => True
  | _, _ => False
  end.

Definition zero : number := Num 0.

End Number.
Export Number.

Infix "≈" := same (at level 70, no associativity).

(** ** JavaScript string primitives *)

Module JsString.

Definition code (c : ascii) : nat := nat_of_ascii c.

(** The character of ['\n']. *)
Definition lineFeed : ascii := ascii_of_nat 10.

Definition lowerChar (c : ascii) : ascii :=
  if (65 <=? code c) && (code c <=? 90) then ascii_of_nat (code c + 32) else c.

(** [s.toLowerCase()] *)
Fixpoint toLowerCase (s : string) : string :=
  match s with
  | EmptyString => EmptyString
  | String c s' => String (lowerChar c) (toLowerCase s')
  end.

(** [s.includes(t)] *)
Fixpoint includes (s t : string) : bool :=
  String.prefix t s ||
  match s with
  | EmptyString => false
  | String _ s' => includes s' t
  end.

(** [s.split(sep)] for a one-character separator: never empty. *)
Fixpoint split (sep : ascii) (s : string) : list string :=
  match s with
  | EmptyString => [EmptyString]
  | String c s' =>
      if Ascii.eqb c sep then EmptyString :: split sep s'
      else match split sep s' with
           | [] => [String c EmptyString]
           | h :: t => String c h :: t
           end
  end.

Definition isWhiteSpace (c : ascii) : bool :=
  ((9 <=? code c) && (code c <=? 13)) || (code c =? 32).

Fixpoint trimStart (s : string) : string :=
  match s with
  | EmptyString => EmptyString
  | String c s' => if isWhiteSpace c then trimStart s' else s
  end.

Fixpoint trimEnd (s : string) : string :=
  match s with
  | EmptyString => EmptyString
  | String c s' =>
      match trimEnd s' with
      | EmptyString => if isWhiteSpace c then EmptyString else String c EmptyString
      | r => String c r
      end
  end.

(** [s.trim()] *)
Definition trim (s : string) : string := trimEnd (trimStart s).

(** ToBoolean on a string: only the empty string is falsy. *)
Definition nonEmpty (s : string) : bool :=
  match s with
  | EmptyString => false
  | String _ _ => true
  end.

Definition digit (c : ascii) : option Z :=
  if (48 <=? code c) && (code c <=? 57) then Some (Z.of_nat (code c - 48)) else None.

(** Longest prefix of decimal digits: its value on top of [acc], how many
    digits were read on top of [n], and the rest of the string. *)
Fixpoint digits (s : string) (acc : Z) (n : nat) : Z * nat * string :=
  match s with
  | EmptyString => (acc, n, s)
  | String c s' =>
      match digit c with
      | Some d => digits s' (10 * acc + d)%Z (S n)
      | None => (acc, n, s)
      end
  end.

Definition signOf (s : string) : bool * string :=
  match s with
  | String "-" r => (true, r)
  | String "+" r => (false, r)
  | _ => (false, s)
  end.

(** The exponent part [e±ddd], read only when it is complete. *)
Definition exponent (s : string) : Z :=
  match s with
  | String c r =>
      if Ascii.eqb c "e" || Ascii.eqb c "E" then
        let '(negative, r') := signOf r in
        let '(v, n, _) := digits r' 0%Z 0 in
        if n =? 0 then 0%Z else if negative then (- v)%Z else v
      else 0%Z
  | EmptyString => 0%Z
  end.

(** [parseFloat(s)]: leading white space, a sign, the longest decimal
    literal ([ddd], [ddd.ddd], [.ddd], [ddd.], with an exponent); [NaN] when
    no digit is found.  Trailing text is ignored. *)
Definition parseFloat (s : string) : number :=
  let '(negative, s1) := signOf (trimStart s) in
  let '(ip, ni, s2) := digits s1 0%Z 0 in
  let '(m, nf, s3) :=
    match s2 with
    | String "." r => let '(m, n, r') := digits r ip 0 in (m, n, r')
    | _ => (ip, 0, s2)
    end in
  if ni + nf =? 0 then NaN
  else
    let mag := (inject_Z m * Qpower (10 # 1) (exponent s3 - Z.of_nat nf))%Q in
    Num (Qred (if negative then - mag else mag)).

(** The decimal text of an integral number, as [n + ''] produces it. *)
Definition ofZ (z : Z) : string := NilZero.string_of_int (Z.to_int z).

End JsString.
Export JsString.


(** ** Data model ([types.ts]) *)

(** [enum TransactionType]: string-valued, and unchecked at run time (the CSV
    parser casts a raw field to it), so a type tag is any string. *)
Module TransactionType.
Definition EXPENSE : string := "EXPENSE".
Definition INCOME : string := "INCOME".
Definition INVESTMENT : string := "INVESTMENT".
End TransactionType.

(** [interface Account].  The optional banking details (holder, number, notes,
    ...) are copied along by every operation below and are left out. *)
Module Account.
Record t : Type := mk {
  id : string;
  userId : string;
  name : string;
  type : string;
  balance : number
}.

Definition withBalance (a : t) (b : number) : t :=
  mk (id a) (userId a) (name a) (type a) b.
End Account.

(** [interface Transaction] *)
Module Transaction.
Record t : Type := mk {
  id : string;
  date : string;
  description : string;
  amount : number;
  type : string;
  category : string;
  subCategory : string;
  accountId : string;
  unitPrice : option string;
  remarks : option string
}.
End Transaction.

(** [interface ParsedTransactionData]: a staged candidate. *)
Module Parsed.
Record t : Type := mk {
  id : option string;
  date : option string;
  description : string;
  amount : number;
  type : string;
  category : string;
  subCategory : string;
  accountNameMatch : string;
  unitDetails : option string;
  remarks : option string;
  isDuplicate : option bool;
  duplicateWarning : option string
}.

(** [{ ...r, id: i }] *)
Definition withId (r : t) (i : string) : t :=
  mk (Some i) (date r) (description r) (amount r) (type r) (category r)
     (subCategory r) (accountNameMatch r) (unitDetails r) (remarks r)
     (isDuplicate r) (duplicateWarning r).
End Parsed.

(** [transferData]: three optional form fields. *)
Module TransferData.
Record t : Type := mk {
  from : option string;
  to : option string;
  amount : option number
}.
Definition empty : t := mk None None None.
End TransferData.

Inductive EntryMode : Type := ai | manual | import.

(** The part of the component state the pipeline reads or writes. *)
Record State : Type := mkState {
  accounts : list Account.t;
  transactions : list Transaction.t;
  categories : list (string * list string);
  previewData : option (list Parsed.t);
  inputText : string;
  entryMode : EntryMode;
  activeTab : string;
  transferData : TransferData.t;
  editingTransaction : option Transaction.t
}.

(** The [useState] setters. *)
Definition setAccounts (v : list Account.t) (s : State) : State :=
  mkState v (transactions s) (categories s) (previewData s) (inputText s)
          (entryMode s) (activeTab s) (transferData s) (editingTransaction s).
Definition setTransactions (v : list Transaction.t) (s : State) : State :=
  mkState (accounts s) v (categories s) (previewData s) (inputText s)
          (entryMode s) (activeTab s) (transferData s) (editingTransaction s).
Definition setPreviewData (v : option (list Parsed.t)) (s : State) : State :=
  mkState (accounts s) (transactions s) (categories s) v (inputText s)
          (entryMode s) (activeTab s) (transferData s) (editingTransaction s).
Definition setInputText (v : string) (s : State) : State :=
  mkState (accounts s) (transactions s) (categories s) (previewData s) v
          (entryMode s) (activeTab s) (transferData s) (editingTransaction s).
Definition setEntryMode (v : EntryMode) (s : State) : State :=
  mkState (accounts s) (transactions s) (categories s) (previewData s) (inputText s)
          v (activeTab s) (transferData s) (editingTransaction s).
Definition setActiveTab (v : string) (s : State) : State :=
  mkState (accounts s) (transactions s) (categories s) (previewData s) (inputText s)
          (entryMode s) v (transferData s) (editingTransaction s).
Definition setTransferData (v : TransferData.t) (s : State) : State :=
  mkState (accounts s) (transactions s) (categories s) (previewData s) (inputText s)
          (entryMode s) (activeTab s) v (editingTransaction s).
Definition setEditingTransaction (v : option Transaction.t) (s : State) : State :=
  mkState (accounts s) (transactions s) (categories s) (previewData s) (inputText s)
          (entryMode s) (activeTab s) (transferData s) v.

(** What a handler leaves behind: it returns, or it raises a [TypeError]; the
    state then holds whatever was written before the raise. *)
Inductive outcome : Type :=
| Returned (s : State)
| TypeError (s : State).

(** The host environment of one handler run. *)
Record Host : Type := mkHost {
  (** [Date.now()], at its k-th reading during the run *)
  now : nat -> Z;
  (** [new Date().toISOString()] *)
  isoNow : string;
  (** [Math.random().toString(36).substr(2, 9)], at its k-th call *)
  randomId : nat -> string
}.

Definition INITIAL_ACCOUNTS : list Account.t :=
  [ Account.mk "1" "u1" "HDFC Savings" "SAVINGS" (Num 50000);
    Account.mk "2" "u1" "Cash Wallet" "WALLET" (Num 2000) ].

(** ** CSV import ([handleBulkImport], the [reader.onload] callback) *)

(** The body of the [for] loop: one line of the file. *)
Definition importRow (h : Host) (k : nat) (line : string) : option Parsed.t :=
  let parts := split "," line in
  if 6 <=? length parts then
    Some (Parsed.mk
            (Some (randomId h k))
            (Some (nth 0 parts ""))
            (nth 1 parts "")
            (parseFloat (nth 2 parts ""))
            (nth 3 parts "")
            (nth 4 parts "")
            "Imported"
            (trim (nth 5 parts ""))
            None None None None)
  else None.

(** [for (let i = 1; i < lines.length; i++)]: [k] counts the rows pushed so
    far, which is also the number of random ids drawn. *)
Fixpoint importRows (h : Host) (k : nat) (lines : list string) : list Parsed.t :=
  match lines with
  | [] => []
  | line :: rest =>
      match importRow h k line with
      | Some p => p :: importRows h (S k) rest
      | None => importRows h k rest
      end
  end.

Definition parseCsv (h : Host) (text : string) : list Parsed.t :=
  importRows h 0 (tail (split lineFeed text)).

Definition handleBulkImport (h : Host) (text : string) (s : State) : State :=
  setActiveTab "input" (setEntryMode import (setPreviewData (Some (parseCsv h text)) s)).

(** ** Commit ([confirmTransactions]) *)

(** [a.name.toLowerCase().includes(p.accountNameMatch.toLowerCase())] *)
Definition nameMatches (p : Parsed.t) (a : Account.t) : Prop :=
  includes (toLowerCase (Account.name a)) (toLowerCase (Parsed.accountNameMatch p)) = true.

#[global] Instance nameMatches_dec p a : Decision (nameMatches p a).
Proof. unfold nameMatches. apply _. Defined.

(** [accIdx !== -1 ? accIdx : 0] *)
Definition accountIndex (p : Parsed.t) (accs : list Account.t) : nat :=
  match list_find (nameMatches p) accs with
  | Some (i, _) => i
  | None => 0
  end.

(** [p.date || new Date().toISOString()] *)
Definition dateOr (h : Host) (d : option string) : string :=
  match d with
  | Some d => if nonEmpty d then d else isoNow h
  | None => isoNow h
  end.

Definition makeTx (h : Host) (i : nat) (p : Parsed.t) (acc : Account.t) : Transaction.t :=
  Transaction.mk
    (ofZ (now h i + Z.of_nat i))
    (dateOr h (Parsed.date p))
    (Parsed.description p)
    (Parsed.amount p)
    (Parsed.type p)
    (Parsed.category p)
    (Parsed.subCategory p)
    (Account.id acc)
    None None.

(** [if (tx.type === TransactionType.INCOME) acc.balance += tx.amount;
     else acc.balance -= tx.amount;] *)
Definition applyTx (tx : Transaction.t) (b : number) : number :=
  if String.eqb (Transaction.type tx) TransactionType.INCOME
  then add b (Transaction.amount tx)
  else sub b (Transaction.amount tx).

(** The callback of [previewData.forEach]: [None] when [acc] is [undefined]
    and reading [acc.id] raises.  The account objects are shared between
    [accounts] and the copy [updatedAccounts], so the balance is written in
    place at the index that was found. *)
Definition commitOne (h : Host) (i : nat) (p : Parsed.t) (accs : list Account.t)
  : option (list Account.t * Transaction.t) :=
  let k := accountIndex p accs in
  acc ← accs !! k;
  let tx := makeTx h i p acc in
  Some (<[k := Account.withBalance acc (applyTx tx (Account.balance acc))]> accs, tx).

(** The [forEach] loop from index [i] on: the accounts as written so far and
    [newTxs] in [push] order, or the accounts at the moment of the raise. *)
Fixpoint commitLoop (h : Host) (i : nat) (batch : list Parsed.t) (accs : list Account.t)
  : list Account.t * option (list Transaction.t) :=
  match batch with
  | [] => (accs, Some [])
  | p :: rest =>
      match commitOne h i p accs with
      | None => (accs, None)
      | Some (accs', tx) =>
          let '(accs'', txs) := commitLoop h (S i) rest accs' in
          (accs'', cons tx <$> txs)
      end
  end.

Definition confirmTransactions (h : Host) (s : State) : outcome :=
  match previewData s with
  | None => Returned s
  | Some batch =>
      match commitLoop h 0 batch (accounts s) with
      | (updatedAccounts, Some newTxs) =>
          Returned
            (setActiveTab "history"
               (setEntryMode ai
                  (setInputText ""
                     (setPreviewData None
                        (setAccounts updatedAccounts
                           (setTransactions (newTxs ++ transactions s) s))))))
      | (written, None) =>
          (* no setter has run; the account objects of [accounts] carry the
             balances written before the raise *)
          TypeError (setAccounts written s)
      end
  end.

(** ** Account deletion ([deleteAccount]); [confirmed] is the answer to the
    [confirm] dialog. *)
Definition deleteAccount (confirmed : bool) (id : string) (s : State) : State :=
  if confirmed then
    setTransactions
      (filter (λ t, Transaction.accountId t ≠ id) (transactions s))
      (setAccounts (filter (λ a, Account.id a ≠ id) (accounts s)) s)
  else s.

(** ** Transfer ([handleTransfer]) *)

(** [accounts.find(a => a.id === id)] *)
Definition findAccount (id : string) (accs : list Account.t) : option Account.t :=
  snd <$> list_find (λ a, Account.id a = id) accs.

(** The callback of [accounts.map]. *)
Definition transferMap (fromAcc toAcc : Account.t) (amount : number) (a : Account.t)
  : Account.t :=
  if String.eqb (Account.id a) (Account.id fromAcc)
  then Account.withBalance a (sub (Account.balance a) amount)
  else if String.eqb (Account.id a) (Account.id toAcc)
  then Account.withBalance a (add (Account.balance a) amount)
  else a.

Definition transferTx (h : Host) (fromAcc toAcc : Account.t) (amount : number)
  : Transaction.t :=
  Transaction.mk
    (ofZ (now h 0))
    (isoNow h)
    ("Transfer: " ++ Account.name fromAcc ++ " → " ++ Account.name toAcc)
    amount
    TransactionType.EXPENSE
    "Transfer"
    "Internal"
    (Account.id fromAcc)
    None None.

(** A form field that is set and truthy. *)
Definition filled (o : option string) : option string :=
  match o with
  | Some v => if nonEmpty v then Some v else None
  | None => None
  end.

Definition filledAmount (o : option number) : option number :=
  match o with
  | Some v => if truthy v then Some v else None
  | None => None
  end.

Definition handleTransfer (h : Host) (s : State) : State :=
  let d := transferData s in
  match filled (TransferData.from d), filled (TransferData.to d),
        filledAmount (TransferData.amount d) with
  | Some from, Some to, Some amount =>
      match findAccount from (accounts s), findAccount to (accounts s) with
      | Some fromAcc, Some toAcc =>
          setActiveTab "dashboard"
            (setTransferData TransferData.empty
               (setTransactions (transferTx h fromAcc toAcc amount :: transactions s)
                  (setAccounts (transferMap fromAcc toAcc amount <$> accounts s) s)))
      | _, _ => s
      end
  | _, _, _ => s
  end.

(** ** Ledger maintenance (the history tab) *)

(** The delete button of a ledger row:
    [setTransactions(transactions.filter(x => x.id !== t.id))]. *)
Definition deleteTransaction (t : Transaction.t) (s : State) : State :=
  setTransactions
    (filter (λ x, Transaction.id x ≠ Transaction.id t) (transactions s)) s.

(** The edit button of a ledger row: [setEditingTransaction(t)]. *)
Definition startEdit (t : Transaction.t) (s : State) : State :=
  setEditingTransaction (Some t) s.

(** The fields of the edit modal: [{...editingTransaction, field: value}]. *)
Definition withDescription (v : string) (t : Transaction.t) : Transaction.t :=
  Transaction.mk (Transaction.id t) (Transaction.date t) v (Transaction.amount t)
    (Transaction.type t) (Transaction.category t) (Transaction.subCategory t)
    (Transaction.accountId t) (Transaction.unitPrice t) (Transaction.remarks t).
Definition withAmount (v : number) (t : Transaction.t) : Transaction.t :=
  Transaction.mk (Transaction.id t) (Transaction.date t) (Transaction.description t) v
    (Transaction.type t) (Transaction.category t) (Transaction.subCategory t)
    (Transaction.accountId t) (Transaction.unitPrice t) (Transaction.remarks t).
Definition withAccountId (v : string) (t : Transaction.t) : Transaction.t :=
  Transaction.mk (Transaction.id t) (Transaction.date t) (Transaction.description t)
    (Transaction.amount t) (Transaction.type t) (Transaction.category t)
    (Transaction.subCategory t) v (Transaction.unitPrice t) (Transaction.remarks t).

Inductive EditField : Type :=
| EditDescription (v : string)
| EditAmount (typed : string)
| EditAccount (accountId : string).

Definition editField (f : EditField) (s : State) : State :=
  match editingTransaction s with
  | None => s
  | Some t =>
      setEditingTransaction
        (Some match f with
              | EditDescription v => withDescription v t
              | EditAmount typed => withAmount (parseFloat typed) t
              | EditAccount a => withAccountId a t
              end) s
  end.

(** The modal's "Commit Change" button:
    [setTransactions(transactions.map(x => x.id === editingTransaction.id ?
     editingTransaction : x)); setEditingTransaction(null)]. *)
Definition commitChange (s : State) : State :=
  match editingTransaction s with
  | None => s
  | Some e =>
      setEditingTransaction None
        (setTransactions
           ((λ x, if String.eqb (Transaction.id x) (Transaction.id e) then e else x)
              <$> transactions s) s)
  end.

(** ** Extraction adapter ([parseNaturalLanguageInput]) *)

(** One [ai.models.generateContent] call: what the request text is built
    from, and whether a [responseSchema] is attached. *)
Record Request : Type := mkRequest {
  input : string;
  accountNames : list string;
  categoryKeys : list string;
  today : string;
  withSchema : bool;
  (** the sentence appended to the prompt of the retry *)
  reminder : string
}.

(** The awaited call either rejects or resolves to a response whose [text]
    may be missing. *)
Inductive Reply : Type :=
| Rejects
| Resolves (text : option string).

(** What [JSON.parse] yields on a text that parses; the elements are taken at
    the type the adapter declares for them. *)
Inductive Json : Type :=
| JArray (items : list Parsed.t)
| JObject (item : Parsed.t).

(** The generative service and the host's JSON reader. *)
Record Service : Type := mkService {
  generateContent : Request -> Reply;
  JSON_parse : string -> option Json
}.

(** [Array.isArray(parsed) ? parsed : [parsed]] *)
Definition toArray (parsed : Json) : list Parsed.t :=
  match parsed with
  | JArray items => items
  | JObject item => [item]
  end.

(** The body shared by both [try] blocks, up to its [return]. *)
Inductive Attempt : Type :=
| Parsed_ (candidates : list Parsed.t)
| NoText
| Raised.

Definition attempt (svc : Service) (r : Request) : Attempt :=
  match generateContent svc r with
  | Rejects => Raised
  | Resolves None => NoText
  | Resolves (Some text) =>
      if nonEmpty text then
        match JSON_parse svc (trim text) with
        | Some parsed => Parsed_ (toArray parsed)
        | None => Raised
        end
      else NoText
  end.

Definition primaryRequest (h : Host) (text : string) (accs : list Account.t)
    (cats : list (string * list string)) : Request :=
  mkRequest text (Account.name <$> accs) (fst <$> cats) (isoNow h) true "".

Definition fallbackRequest (h : Host) (text : string) (accs : list Account.t)
    (cats : list (string * list string)) : Request :=
  mkRequest text (Account.name <$> accs) (fst <$> cats) (isoNow h) false
            "IMPORTANT: Return strictly a valid JSON array of objects.".

(** The result ([None] is [null]) and the requests sent, in order. *)
Definition parseNaturalLanguageInput (h : Host) (svc : Service) (text : string)
    (accs : list Account.t) (cats : list (string * list string))
  : option (list Parsed.t) * list Request :=
  let primary := primaryRequest h text accs cats in
  match attempt svc primary with
  | Parsed_ candidates => (Some candidates, [primary])
  | NoText => (Some [], [primary])
  | Raised =>
      let fallback := fallbackRequest h text accs cats in
      match attempt svc fallback with
      | Parsed_ candidates => (Some candidates, [primary; fallback])
      | NoText | Raised => (None, [primary; fallback])
      end
  end.

(** ** Smart entry ([processSmartEntry]) *)

(** [results.map(r => ({ ...r, id: Math.random()... }))] *)
Fixpoint stageAll (h : Host) (k : nat) (results : list Parsed.t) : list Parsed.t :=
  match results with
  | [] => []
  | r :: rest => Parsed.withId r (randomId h k) :: stageAll h (S k) rest
  end.

(** The state after the handler and the requests it caused.  The adapter
    never raises, so the [catch] of the handler is not reached. *)
Definition processSmartEntry (h : Host) (svc : Service) (s : State)
  : State * list Request :=
  if nonEmpty (trim (inputText s)) then
    match parseNaturalLanguageInput h svc (inputText s) (accounts s) (categories s) with
    | (Some results, sent) => (setPreviewData (Some (stageAll h 0 results)) s, sent)
    | (None, sent) => (s, sent)
    end
  else (s, []).

(** ** Ledger bookkeeping used by the statements *)

(** The delta the commit applies for a stored transaction. *)
Definition signedDelta (t : Transaction.t) : number :=
  if String.eqb (Transaction.type t) TransactionType.INCOME
  then Transaction.amount t
  else neg (Transaction.amount t).

(** Sum of a list of numbers, from the left. *)
Definition sum (l : list number) : number := foldr add zero l.

(** The sum of all balances of a directory. *)
Definition totalBalance (accs : list Account.t) : number :=
  sum (Account.balance <$> accs).

(** The transactions recorded against an account. *)
Definition appliedTo (id : string) (txs : list Transaction.t) : list Transaction.t :=
  filter (λ t, Transaction.accountId t = id) txs.

(** The balance invariant of the data model, for opening balances [opening]:
    every balance is the opening balance plus the deltas of the transactions
    recorded against the account. *)
Definition balanced (opening : string -> number) (s : State) : Prop :=
  ∀ a, a ∈ accounts s →
    Account.balance a ≈
      add (opening (Account.id a)) (sum (signedDelta <$> appliedTo (Account.id a) (transactions s))).

(** The delta a candidate contributes when it is committed. *)
Definition candidateDelta (p : Parsed.t) : number :=
  if String.eqb (Parsed.type p) TransactionType.INCOME
  then Parsed.amount p
  else neg (Parsed.amount p).

(** [accountIndex] computed on the list of account names. *)
Definition nameIndex (p : Parsed.t) (names : list string) : nat :=
  match list_find
          (λ n, includes (toLowerCase n) (toLowerCase (Parsed.accountNameMatch p)) = true)
          names with
  | Some (i, _) => i
  | None => 0
  end.

(** A candidate the commit can book: its index denotes an account. *)
Definition resolves (accs : list Account.t) (p : Parsed.t) : Prop :=
  is_Some (accs !! accountIndex p accs).

(** A strictly positive number. *)
Definition positive (x : number) : Prop :=
  match x with
  | Num q => (0 < q)%Q
  | NaN => False
  end.

(** What the [map] of a transfer adds to the total of a directory with
    distinct ids: the debit if the source is listed, the credit if the target
    is. *)
Definition transferNet (X Y : Account.t) (q : Q) (accs : list Account.t) : Q :=
  ((if decide (Account.id X ∈ Account.id <$> accs) then - q else 0) +
   (if decide (Account.id Y ∈ Account.id <$> accs) then q else 0))%Q.

(** [l.join(sep)] for a one-character separator; it states what a file
    with given lines, or a line with given fields, looks like. *)
Fixpoint join (sep : ascii) (l : list string) : string :=
  match l with
  | [] => EmptyString
  | [x] => x
  | x :: rest => x ++ String sep (join sep rest)
  end.

(** The character [sep] does not occur in [s]. *)
Fixpoint lacks (sep : ascii) (s : string) : bool :=
  match s with
  | EmptyString => true
  | String c s' => negb (Ascii.eqb c sep) && lacks sep s'
  end.

(** The candidate the import builds from the fields of an accepted row. *)
Definition candidateOf (h : Host) (k : nat) (fields : list string) : Parsed.t :=
  Parsed.mk (Some (randomId h k)) (Some (nth 0 fields "")) (nth 1 fields "")
            (parseFloat (nth 2 fields "")) (nth 3 fields "") (nth 4 fields "")
            "Imported" (trim (nth 5 fields "")) None None None None.

(** A candidate without duplicate flag and warning text. *)
Definition unflagged (p : Parsed.t) : Prop :=
  Parsed.isDuplicate p = None ∧ Parsed.duplicateWarning p = None.

(** The [try] block around a request raises: the call rejects, or its text
    is there and does not parse. *)
Definition raises (svc : Service) (r : Request) : Prop :=
  generateContent svc r = Rejects ∨
  ∃ text, generateContent svc r = Resolves (Some text) ∧
          nonEmpty text = true ∧ JSON_parse svc (trim text) = None.

(** The response carries no text. *)
Definition textless (svc : Service) (r : Request) : Prop :=
  generateContent svc r = Resolves None ∨
  ∃ text, generateContent svc r = Resolves (Some text) ∧ nonEmpty text = false.

(** The response text parses to [parsed]. *)
Definition yields (svc : Service) (r : Request) (parsed : Json) : Prop :=
  ∃ text, generateContent svc r = Resolves (Some text) ∧
          nonEmpty text = true ∧ JSON_parse svc (trim text) = Some parsed.

(** ** Sample data *)

Definition newline : string := String lineFeed EmptyString.

(** A host whose clock stands at one instant and whose random ids are
    ["r0"], ["r1"], ... *)
Definition sampleHost : Host :=
  mkHost (λ _, 1704448800000%Z) "2024-01-05T10:00:00.000Z"
         (λ k, "r" ++ ofZ (Z.of_nat k)).

(** The state of a fresh installation. *)
Definition initialState : State :=
  mkState INITIAL_ACCOUNTS [] [] None "" ai "input" TransferData.empty None.

Definition csvHeader : string := "Date,Description,Amount,Type,Category,AccountName".

(** The template row of [downloadCsvTemplate], after the header. *)
Definition coffeeCsv : string :=
  csvHeader ++ newline ++ "2023-10-25,Coffee,250,EXPENSE,Beverages,Cash Wallet".

Definition coffee : Parsed.t :=
  Parsed.mk (Some "r0") (Some "2023-10-25") "Coffee" (Num 250) "EXPENSE"
            "Beverages" "Imported" "Cash Wallet" None None None None.

(** The coffee row staged by the import, then the wallet account deleted. *)
Definition stagedCoffee : State := handleBulkImport sampleHost coffeeCsv initialState.
Definition afterDeletion : State := deleteAccount true "2" stagedCoffee.

(** A row with a negative amount. *)
Definition refundCsv : string :=
  csvHeader ++ newline ++ "2023-10-25,Refund,-250,EXPENSE,Misc,Cash Wallet".
Definition stagedRefund : State := handleBulkImport sampleHost refundCsv initialState.

(** A batch staged while the directory is empty. *)
Definition emptyDirectory : State :=
  mkState [] [] [] (Some [coffee]) "" ai "input" TransferData.empty None.

(** A candidate whose hint is longer than the name of the account meant. *)
Definition walletTopUp : Parsed.t :=
  Parsed.mk (Some "r0") (Some "2024-01-05") "Top up" (Num 500) "INCOME"
            "Income" "Salary" "My Cash Wallet" None None None None.

Definition cashWallet : Account.t :=
  Account.mk "2" "u1" "Cash Wallet" "WALLET" (Num 2000).

Definition hdfcSavings : Account.t :=
  Account.mk "1" "u1" "HDFC Savings" "SAVINGS" (Num 50000).

(** The transfer form filled in: from HDFC Savings to Cash Wallet. *)
Definition transferForm (amount : number) : State :=
  setTransferData (TransferData.mk (Some "1") (Some "2") (Some amount)) initialState.

(** The same account chosen on both sides of the form. *)
Definition selfTransferForm : State :=
  setTransferData (TransferData.mk (Some "1") (Some "1") (Some (Num 100))) initialState.

(** The row of the specification, with five fields. *)
Definition fiveFieldCsv : string :=
  "Date,Description,Amount,Type,AccountName" ++ newline ++
  "2023-10-25,Coffee,250,EXPENSE,Cash Wallet".

Definition coffeeFields : list string :=
  ["2023-10-25"; "Coffee"; "250"; "EXPENSE"; "Beverages"; "Cash Wallet"].

(** A ledger holding one committed grocery expense of 1200 against HDFC
    Savings, whose balance has gone from 50000 to 48800. *)
Definition groceryTx : Transaction.t :=
  Transaction.mk "1704448800000" "2024-01-05" "Grocery Shopping" (Num 1200)
                 "EXPENSE" "Produce" "Vegetables" "1" None None.

Definition ledgerState : State :=
  mkState [Account.withBalance hdfcSavings (Num 48800); cashWallet] [groceryTx] []
          None "" ai "history" TransferData.empty None.

Definition openingBalance (id : string) : number :=
  if String.eqb id "1" then Num 50000
  else if String.eqb id "2" then Num 2000 else zero.

(** CSV files restating the grocery expense, with amount 1200 and 5000. *)
Definition groceryCsv (amount : string) : string :=
  csvHeader ++ newline ++
  "2024-01-05,Grocery Shopping at Store," ++ amount ++ ",EXPENSE,Produce,HDFC Savings".

(** A service that rejects every call. *)
Definition deadService : Service := mkService (λ _, Rejects) (λ _, None).

(** A service that rejects the request with a schema and answers the other
    with a single object. *)
Definition objectService : Service :=
  mkService (λ r, if withSchema r then Rejects else Resolves (Some " {...} "))
            (λ _, Some (JObject coffee)).

Definition typedState : State :=
  setInputText "coffee 250 from cash wallet" initialState.

(** ** Further handlers of [App.tsx] *)

(** *** The staging list (the rows of [previewData.map]) *)

Inductive StagedField : Type :=
| StagedDescription (v : string)
| StagedDate (v : string)
| StagedAmount (typed : string)
| StagedAccount (name : string).

(** [n[i].field = value] *)
Definition withStagedField (f : StagedField) (p : Parsed.t) : Parsed.t :=
  match f with
  | StagedDescription v =>
      Parsed.mk (Parsed.id p) (Parsed.date p) v (Parsed.amount p) (Parsed.type p)
        (Parsed.category p) (Parsed.subCategory p) (Parsed.accountNameMatch p)
        (Parsed.unitDetails p) (Parsed.remarks p) (Parsed.isDuplicate p)
        (Parsed.duplicateWarning p)
  | StagedDate v =>
      Parsed.mk (Parsed.id p) (Some v) (Parsed.description p) (Parsed.amount p)
        (Parsed.type p) (Parsed.category p) (Parsed.subCategory p)
        (Parsed.accountNameMatch p) (Parsed.unitDetails p) (Parsed.remarks p)
        (Parsed.isDuplicate p) (Parsed.duplicateWarning p)
  | StagedAmount typed =>
      Parsed.mk (Parsed.id p) (Parsed.date p) (Parsed.description p) (parseFloat typed)
        (Parsed.type p) (Parsed.category p) (Parsed.subCategory p)
        (Parsed.accountNameMatch p) (Parsed.unitDetails p) (Parsed.remarks p)
        (Parsed.isDuplicate p) (Parsed.duplicateWarning p)
  | StagedAccount name =>
      Parsed.mk (Parsed.id p) (Parsed.date p) (Parsed.description p) (Parsed.amount p)
        (Parsed.type p) (Parsed.category p) (Parsed.subCategory p) name
        (Parsed.unitDetails p) (Parsed.remarks p) (Parsed.isDuplicate p)
        (Parsed.duplicateWarning p)
  end.

(** The [onChange] of a field of row [i]:
    [const n=[...previewData]; n[i].field=value; setPreviewData(n)].
    Spreading [null] raises, and so does writing to [n[i]] when it is
    [undefined]. *)
Definition editStaged (i : nat) (f : StagedField) (s : State) : outcome :=
  match previewData s with
  | None => TypeError s
  | Some batch =>
      match batch !! i with
      | None => TypeError s
      | Some p => Returned (setPreviewData (Some (<[i := withStagedField f p]> batch)) s)
      end
  end.

(** The remove button of a row:
    [setPreviewData(previewData.filter(x => x.id !== p.id))]. *)
Definition removeStaged (p : Parsed.t) (s : State) : outcome :=
  match previewData s with
  | None => TypeError s
  | Some batch =>
      Returned (setPreviewData (Some (filter (λ x, Parsed.id x ≠ Parsed.id p) batch)) s)
  end.

(** *** Account maintenance ([updateAccount]) *)

(** [Partial<Account>], the content of the account form. *)
Module AccountDraft.
Record t : Type := mk {
  id : option string;
  userId : option string;
  name : option string;
  type : option string;
  balance : option number
}.

(** [{}], the form of a new account *)
Definition empty : t := mk None None None None None.

(** [setEditingAccount(acc)] *)
Definition ofAccount (a : Account.t) : t :=
  mk (Some (Account.id a)) (Some (Account.userId a)) (Some (Account.name a))
     (Some (Account.type a)) (Some (Account.balance a)).
End AccountDraft.

(** [editingAccount as Account].  A field the draft lacks is [undefined] in
    the record.  No handler reads a string field that can be missing here (the
    name and, on the edit path, the id are checked before the cast), and it is
    kept as the empty string; a missing balance behaves in arithmetic and under
    ToBoolean as [NaN] does. *)
Definition asAccount (d : AccountDraft.t) : Account.t :=
  Account.mk (default "" (AccountDraft.id d)) (default "" (AccountDraft.userId d))
             (default "" (AccountDraft.name d)) (default "" (AccountDraft.type d))
             (default NaN (AccountDraft.balance d)).

(** [editingAccount.balance || 0] *)
Definition balanceOrZero (o : option number) : number :=
  match filledAmount o with
  | Some b => b
  | None => zero
  end.

(** The state after the handler and the new value of [editingAccount]. *)
Definition updateAccount (h : Host) (editingAccount : option AccountDraft.t) (s : State)
  : State * option AccountDraft.t :=
  match editingAccount with
  | None => (s, None)
  | Some d =>
      match filled (AccountDraft.name d) with
      | None => (s, Some d)
      | Some _ =>
          match filled (AccountDraft.id d) with
          | Some i =>
              (setAccounts
                 ((λ a, if String.eqb (Account.id a) i then asAccount d else a)
                    <$> accounts s) s,
               None)
          | None =>
              let newAcc :=
                Account.mk (ofZ (now h 0)) "u1" (Account.name (asAccount d))
                           (Account.type (asAccount d))
                           (balanceOrZero (AccountDraft.balance d)) in
              (setAccounts (accounts s ++ [newAcc]) s, None)
          end
      end
  end.

(** ** Further notions used by the statements *)

(** Every ledger row is recorded against an account of the directory. *)
Definition referenced (s : State) : Prop :=
  ∀ t, t ∈ transactions s → Transaction.accountId t ∈ Account.id <$> accounts s.

(** Two accounts that differ in the balance at most. *)
Definition sameButBalance (a a' : Account.t) : Prop :=
  a' = Account.withBalance a (Account.balance a').

(** ** Further sample data *)

(** A row whose amount field holds no number. *)
Definition junkCsv : string :=
  csvHeader ++ newline ++ "2023-10-25,Coffee,n/a,EXPENSE,Beverages,Cash Wallet".
Definition stagedJunk : State := handleBulkImport sampleHost junkCsv initialState.

(** The form of a new account, filled in with a name only. *)
Definition pettyCashDraft : AccountDraft.t :=
  AccountDraft.mk None None (Some "Petty Cash") None None.

(** A line of the file the import accepts. *)
Definition accepted (line : string) : Prop := 6 ≤ length (split "," line).

#[global] Instance accepted_dec line : Decision (accepted line).
Proof. unfold accepted. apply _. Defined.

(** The record in the edit modal after one field was changed. *)
Definition applyEditField (f : EditField) (t : Transaction.t) : Transaction.t :=
  match f with
  | EditDescription v => withDescription v t
  | EditAmount typed => withAmount (parseFloat typed) t
  | EditAccount a => withAccountId a t
  end.

(** A file with the line ending of Windows. *)
Definition carriageReturn : ascii := ascii_of_nat 13.

(** ** The price index ([savePriceLog], [autoFillPrice], [predictItemDetails]) *)

(** [interface PriceLog] *)
Module PriceLog.
Record t : Type := mk {
  id : string;
  date : string;
  itemName : string;
  brand : option string;
  category : string;
  subCategory : string;
  price : number;
  quantity : number;
  unit : string;
  pricePerUnit : number;
  saleStatus : bool
}.
End PriceLog.

(** [newPriceLog], the content of the price form: the fields of
    [Partial<PriceLog>] that the form and its handlers set or read. *)
Module PriceDraft.
Record t : Type := mk {
  itemName : option string;
  category : option string;
  subCategory : option string;
  price : option number;
  quantity : option number;
  unit : option string;
  saleStatus : option bool
}.

End PriceDraft.






(** [interface ItemPrediction] *)
Module Prediction.
Record t : Type := mk {
  unit : string;
  category : string;
  subCategory : string
}.
End Prediction.

(** One call of [predictItemDetails] to the service. *)
Record PredictRequest : Type := mkPredictRequest {
  item : string;
  schema : bool;
  (** the sentence appended to the prompt of the retry *)
  suffix : string
}.

(** The service and the JSON reader for predictions: a text that does not
    parse gives [None]; one that parses gives the parsed value, which is the
    prediction or [null]. *)
Record PredictService : Type := mkPredictService {
  predictContent : PredictRequest -> Reply;
  parsePrediction : string -> option (option Prediction.t)
}.

Definition predictRetry (svc : PredictService) (itemName : string)
  : option Prediction.t * list PredictRequest :=
  let primary := mkPredictRequest itemName true "" in
  let fallback :=
    mkPredictRequest itemName false
      " Return JSON object with keys: unit, category, subCategory." in
  match predictContent svc fallback with
  | Resolves (Some text) =>
      if nonEmpty text then
        match parsePrediction svc text with
        | Some parsed => (parsed, [primary; fallback])
        | None => (None, [primary; fallback])
        end
      else (None, [primary; fallback])
  | Resolves None | Rejects => (None, [primary; fallback])
  end.

(** The result ([None] is [null]) and the requests sent, in order. *)
Definition predictItemDetails (svc : PredictService) (itemName : string)
  : option Prediction.t * list PredictRequest :=
  let primary := mkPredictRequest itemName true "" in
  match predictContent svc primary with
  | Rejects => predictRetry svc itemName
  | Resolves None => (None, [primary])
  | Resolves (Some text) =>
      if nonEmpty text then
        match parsePrediction svc text with
        | Some parsed => (parsed, [primary])
        | None => predictRetry svc itemName
        end
      else (None, [primary])
  end.

(** The form after the handler and the requests it caused. *)
Definition autoFillPrice (svc : PredictService) (newPriceLog : PriceDraft.t)
  : PriceDraft.t * list PredictRequest :=
  match filled (PriceDraft.itemName newPriceLog) with
  | None => (newPriceLog, [])
  | Some itemName =>
      match predictItemDetails svc itemName with
      | (Some p, sent) =>
          (PriceDraft.mk (PriceDraft.itemName newPriceLog)
             (Some (Prediction.category p)) (Some (Prediction.subCategory p))
             (PriceDraft.price newPriceLog) (PriceDraft.quantity newPriceLog)
             (Some (Prediction.unit p)) (PriceDraft.saleStatus newPriceLog),
           sent)
      | (None, sent) => (newPriceLog, sent)
      end
  end.


(** A prediction service that answers the first request with text that does
    not parse and the retry with a prediction. *)
Definition retryPredictService : PredictService :=
  mkPredictService
    (λ r, Resolves (Some (if schema r then "oops" else "{...}")))
    (λ text, if String.eqb text "oops" then None
             else Some (Some (Prediction.mk "l" "Pantry" "Oils"))).

(** ** The dashboard ([dashboardStats], the net worth figure) *)

(** The host's calendar: [new Date(text).getTime()], [None] for an invalid
    date, and the time of the cutoff date the memo computes from
    [dashboardTimeView]. *)
Record Calendar : Type := mkCalendar {
  timeOf : string -> option Z;
  cutoff : Z
}.

(** [new Date(t.date) >= cutoff] *)
Definition inPeriod (c : Calendar) (t : Transaction.t) : Prop :=
  match timeOf c (Transaction.date t) with
  | Some ms => (cutoff c <= ms)%Z
  | None => False
  end.

#[global] Instance inPeriod_dec c t : Decision (inPeriod c t).
Proof. unfold inPeriod. destruct (timeOf c (Transaction.date t)); apply _. Defined.

(** [.reduce((s, t) => s + t.amount, 0)] *)
Definition reduceAmounts (txs : list Transaction.t) : number :=
  foldl (λ s t, add s (Transaction.amount t)) zero txs.

Record Stats : Type := mkStats {
  expenses : number;
  income : number;
  net : number
}.

Definition dashboardStats (c : Calendar) (txs : list Transaction.t) : Stats :=
  let periodTxs := filter (inPeriod c) txs in
  let expenses :=
    reduceAmounts
      (filter (λ t, Transaction.type t = TransactionType.EXPENSE) periodTxs) in
  let income :=
    reduceAmounts
      (filter (λ t, Transaction.type t = TransactionType.INCOME) periodTxs) in
  mkStats expenses income (sub income expenses).

(** [accounts.reduce((s, a) => s + a.balance, 0)] *)
Definition netWorth (accs : list Account.t) : number :=
  foldl (λ s a, add s (Account.balance a)) zero accs.

(** A calendar in which every date of the samples lies in the period. *)
Definition wideCalendar : Calendar := mkCalendar (λ _, Some 1704448800000%Z) 0%Z.

(** ** Evaluation on concrete inputs *)

Example parseFloat_250 : parseFloat "250" = Num 250.
Proof. reflexivity. Qed.
Example parseFloat_frac : parseFloat " -12.50abc" = Num (-25 # 2).
Proof. reflexivity. Qed.
Example parseFloat_exp : parseFloat "1.5e3" = Num 1500.
Proof. reflexivity. Qed.
Example parseFloat_nan : parseFloat "abc" = NaN.
Proof. reflexivity. Qed.
Example split_row : split "," "a,,b," = ["a"; ""; "b"; ""].
Proof. reflexivity. Qed.
Example includes_empty : includes "abc" "" = true.
Proof. reflexivity. Qed.
Example trim_cr : trim (" Cash Wallet" ++ String (ascii_of_nat 13) "") = "Cash Wallet".
Proof. reflexivity. Qed.
Example ofZ_ex : ofZ 1700000000003 = "1700000000003".
Proof. reflexivity. Qed.

(** ** Arithmetic of [number] *)

#[global] Instance same_equivalence : Equivalence same.
Proof.
  split.
  - intros [q|]; simpl; [reflexivity | exact I].
  - intros [p|] [q|]; simpl; try tauto. intros H. symmetry. exact H.
  - intros [p|] [q|] [r|]; simpl; try tauto. intros H1 H2.
    rewrite H1. exact H2.
Qed.

#[global] Instance add_proper : Proper (same ==> same ==> same) add.
Proof.
  intros [p|] [p'|] Hp [q|] [q'|] Hq; simpl in *; try tauto.
  rewrite Hp, Hq. reflexivity.
Qed.

Lemma add_comm x y : add x y ≈ add y x.
Proof. destruct x, y; simpl; try exact I. apply Qplus_comm. Qed.

Lemma add_assoc x y z : add x (add y z) ≈ add (add x y) z.
Proof. destruct x, y, z; simpl; try exact I. apply Qplus_assoc. Qed.

Lemma add_zero_r x : add x zero ≈ x.
Proof. destruct x; simpl; [apply Qplus_0_r | exact I]. Qed.

Lemma add_zero_l x : add zero x ≈ x.
Proof. destruct x; simpl; [apply Qplus_0_l | exact I]. Qed.

Lemma sub_add_neg x y : sub x y ≈ add x (neg y).
Proof. destruct x, y; simpl; try exact I. reflexivity. Qed.

(** Moving one summand out of a sum. *)
Lemma add_swap x y z : add (add x y) z ≈ add (add x z) y.
Proof.
  rewrite <- !add_assoc. apply add_proper; [reflexivity | apply add_comm].
Qed.

Lemma sum_cons x l : sum (x :: l) = add x (sum l).
Proof. reflexivity. Qed.

Lemma sum_app l1 l2 : sum (l1 ++ l2) ≈ add (sum l1) (sum l2).
Proof.
  induction l1 as [|x l1 IH].
  - symmetry. apply add_zero_l.
  - change (sum ((x :: l1) ++ l2)) with (sum (x :: (l1 ++ l2))).
    rewrite !sum_cons, IH. apply add_assoc.
Qed.

(** ** Account resolution depends on the names only *)

Lemma accountIndex_nameIndex p accs :
  accountIndex p accs = nameIndex p (Account.name <$> accs).
Proof.
  unfold accountIndex, nameIndex. rewrite list_find_fmap.
  change (_ ∘ Account.name) with (nameMatches p).
  destruct (list_find (nameMatches p) accs) as [[i a]|]; reflexivity.
Qed.

Lemma accountIndex_found p (accs : list Account.t) (k : nat) a :
  accs !! k = Some a → nameMatches p a →
  (∀ j b, accs !! j = Some b → j < k → ¬ nameMatches p b) →
  accountIndex p accs = k.
Proof.
  intros Hk Hm Hfirst. unfold accountIndex.
  assert (list_find (nameMatches p) accs = Some (k, a)) as ->; [|reflexivity].
  apply list_find_Some. auto.
Qed.

Lemma accountIndex_default p accs :
  (∀ a, a ∈ accs → ¬ nameMatches p a) → accountIndex p accs = 0.
Proof.
  intros Hno. unfold accountIndex.
  assert (list_find (nameMatches p) accs = None) as ->; [|reflexivity].
  apply list_find_None, Forall_forall. exact Hno.
Qed.

(** On a directory that is not empty the index always denotes an account,
    and that account either is the first match or is the default. *)
Lemma accountIndex_lookup p accs :
  accs ≠ [] →
  ∃ a, accs !! accountIndex p accs = Some a ∧
       ((nameMatches p a ∧
         ∀ j b, accs !! j = Some b → j < accountIndex p accs → ¬ nameMatches p b) ∨
        (accountIndex p accs = 0 ∧ ∀ b, b ∈ accs → ¬ nameMatches p b)).
Proof.
  intros Hne. unfold accountIndex.
  destruct (list_find (nameMatches p) accs) as [[i a]|] eqn:Hfind.
  - apply list_find_Some in Hfind as (Hi & Hm & Hfirst).
    exists a. split; [exact Hi | left; split; [exact Hm | exact Hfirst]].
  - destruct accs as [|a0 rest]; [congruence|].
    exists a0. split; [reflexivity | right; split; [reflexivity|]].
    apply list_find_None in Hfind. apply Forall_forall. exact Hfind.
Qed.

(** ** One candidate *)

Lemma applyTx_makeTx h i p acc b :
  applyTx (makeTx h i p acc) b ≈ add b (candidateDelta p).
Proof.
  unfold applyTx, candidateDelta. simpl.
  destruct (String.eqb (Parsed.type p) TransactionType.INCOME).
  - reflexivity.
  - apply sub_add_neg.
Qed.

Lemma commitOne_Some h i p accs :
  accs ≠ [] →
  ∃ acc, accs !! accountIndex p accs = Some acc ∧
    commitOne h i p accs =
      Some (<[accountIndex p accs :=
                Account.withBalance acc
                  (applyTx (makeTx h i p acc) (Account.balance acc))]> accs,
            makeTx h i p acc).
Proof.
  intros Hne. destruct (accountIndex_lookup p accs Hne) as (acc & Hacc & _).
  exists acc. split; [exact Hacc|]. unfold commitOne. rewrite Hacc. reflexivity.
Qed.

Lemma commitOne_None h i p accs :
  commitOne h i p accs = None → accs = [].
Proof.
  intros Hnone. destruct accs as [|a rest]; [reflexivity|].
  destruct (commitOne_Some h i p (a :: rest)) as (acc & _ & Heq); congruence.
Qed.

Lemma names_insert_withBalance (accs : list Account.t) (k : nat) a b :
  accs !! k = Some a →
  Account.name <$> <[k := Account.withBalance a b]> accs = Account.name <$> accs.
Proof.
  intros Hk. rewrite list_fmap_insert. apply list_insert_id.
  rewrite list_lookup_fmap, Hk. reflexivity.
Qed.

Lemma ids_insert_withBalance (accs : list Account.t) (k : nat) a b :
  accs !! k = Some a →
  Account.id <$> <[k := Account.withBalance a b]> accs = Account.id <$> accs.
Proof.
  intros Hk. rewrite list_fmap_insert. apply list_insert_id.
  rewrite list_lookup_fmap, Hk. reflexivity.
Qed.

Lemma totalBalance_insert (accs : list Account.t) (k : nat) a b d :
  accs !! k = Some a → b ≈ add (Account.balance a) d →
  totalBalance (<[k := Account.withBalance a b]> accs) ≈ add (totalBalance accs) d.
Proof.
  unfold totalBalance. revert k.
  induction accs as [|x accs IH]; intros k Hk Hb; [discriminate|].
  destruct k as [|k]; cbn [lookup list_lookup] in Hk.
  - injection Hk as ->. cbn [insert list_insert fmap list_fmap Account.balance Account.withBalance].
    rewrite !sum_cons, Hb. apply add_swap.
  - cbn [insert list_insert fmap list_fmap]. rewrite !sum_cons.
    rewrite (IH k Hk Hb). apply add_assoc.
Qed.

Lemma fmap_eq_lookup {A B} (f : A → B) (l1 l2 : list A) (k : nat) x :
  f <$> l1 = f <$> l2 → l1 !! k = Some x → ∃ y, l2 !! k = Some y ∧ f y = f x.
Proof.
  intros Heq Hx. apply (f_equal (λ l, l !! k)) in Heq.
  rewrite !list_lookup_fmap, Hx in Heq. simpl in Heq.
  destruct (l2 !! k) as [y|]; [|discriminate].
  exists y. split; [reflexivity|]. simpl in Heq. congruence.
Qed.

Lemma makeTx_id h i p a a' :
  Account.id a = Account.id a' → makeTx h i p a = makeTx h i p a'.
Proof. unfold makeTx. intros ->. reflexivity. Qed.

(** ** The whole batch *)

Section Commit.
Variable h : Host.

(** The loop over a directory that is not empty: it completes, pushes one
    transaction per candidate, keeps every name and id, and moves each balance
    by the deltas of the candidates resolved to that position. *)
Lemma commitLoop_spec batch :
  ∀ i (accs : list Account.t), accs ≠ [] →
  ∃ accs' txs,
    commitLoop h i batch accs = (accs', Some txs) ∧
    length txs = length batch ∧
    Account.name <$> accs' = Account.name <$> accs ∧
    Account.id <$> accs' = Account.id <$> accs ∧
    (∀ j p, batch !! j = Some p →
       ∃ acc, accs !! accountIndex p accs = Some acc ∧
              txs !! j = Some (makeTx h (i + j) p acc)) ∧
    (∀ k a, accs !! k = Some a →
       ∃ a', accs' !! k = Some a' ∧
             a' = Account.withBalance a (Account.balance a') ∧
             Account.balance a' ≈
               add (Account.balance a)
                   (sum (candidateDelta <$>
                           filter (λ p, nameIndex p (Account.name <$> accs) = k) batch))) ∧
    totalBalance accs' ≈ add (totalBalance accs) (sum (candidateDelta <$> batch)).
Proof.
  induction batch as [|p rest IH]; intros i accs Hne.
  - exists accs, []. split_and!; try reflexivity.
    + intros j p Hj. discriminate.
    + intros k a Hk. exists a. split_and!; [exact Hk | by destruct a |].
      symmetry. apply add_zero_r.
    + symmetry. apply add_zero_r.
  - destruct (commitOne_Some h i p accs Hne) as (acc & Hacc & Hone).
    set (k0 := accountIndex p accs) in *.
    set (tx := makeTx h i p acc) in *.
    set (accs1 := <[k0 := Account.withBalance acc (applyTx tx (Account.balance acc))]> accs) in *.
    assert (Hnames1 : Account.name <$> accs1 = Account.name <$> accs)
      by (apply names_insert_withBalance; exact Hacc).
    assert (Hids1 : Account.id <$> accs1 = Account.id <$> accs)
      by (apply ids_insert_withBalance; exact Hacc).
    assert (Hne1 : accs1 ≠ []).
    { intros Hnil. apply (f_equal length) in Hnil.
      unfold accs1 in Hnil. rewrite length_insert in Hnil.
      destruct accs; [congruence | discriminate]. }
    destruct (IH (S i) accs1 Hne1) as (accs' & txs & Hloop & Hlen & Hnames & Hids & Htxs & Hbal & Htot).
    exists accs', (tx :: txs). split_and!.
    + cbn [commitLoop]. rewrite Hone, Hloop. reflexivity.
    + simpl. rewrite Hlen. reflexivity.
    + rewrite Hnames. exact Hnames1.
    + rewrite Hids. exact Hids1.
    + intros [|j] q Hq; cbn [lookup list_lookup] in Hq.
      * injection Hq as <-. exists acc. split; [exact Hacc|].
        rewrite Nat.add_0_r. reflexivity.
      * destruct (Htxs j q Hq) as (acc1 & Hacc1 & Htx).
        rewrite !accountIndex_nameIndex, Hnames1, <- accountIndex_nameIndex in Hacc1.
        destruct (fmap_eq_lookup Account.id accs1 accs _ _ Hids1 Hacc1) as (acc0 & Hacc0 & Hid).
        exists acc0. split; [exact Hacc0|].
        change ((tx :: txs) !! S j) with (txs !! j). rewrite Htx.
        rewrite (makeTx_id h _ q acc1 acc0) by (symmetry; exact Hid).
        f_equal. f_equal. lia.
    + intros k a Hk.
      rewrite filter_cons.
      destruct (decide (k = k0)) as [->|Hk0].
      * assert (a = acc) as -> by congruence.
        assert (Hk1 : accs1 !! k0 = Some (Account.withBalance acc (applyTx tx (Account.balance acc)))).
        { unfold accs1. apply list_lookup_insert_eq. eapply lookup_lt_Some. exact Hacc. }
        destruct (Hbal _ _ Hk1) as (a' & Ha' & Hrec & Hsum).
        exists a'. split_and!; [exact Ha' | rewrite Hrec; reflexivity |].
        rewrite Hsum, Hnames1. cbn [Account.balance Account.withBalance].
        rewrite decide_True by (rewrite <- accountIndex_nameIndex; reflexivity).
        rewrite fmap_cons, sum_cons.
        unfold tx. rewrite applyTx_makeTx. symmetry. apply add_assoc.
      * assert (Hk1 : accs1 !! k = Some a).
        { unfold accs1. rewrite list_lookup_insert_ne by congruence. exact Hk. }
        destruct (Hbal _ _ Hk1) as (a' & Ha' & Hrec & Hsum).
        exists a'. split_and!; [exact Ha' | exact Hrec |].
        rewrite Hsum, Hnames1.
        rewrite decide_False; [reflexivity|].
        rewrite <- accountIndex_nameIndex. fold k0. congruence.
    + rewrite Htot. unfold accs1.
      rewrite (totalBalance_insert accs k0 acc _ (candidateDelta p) Hacc)
        by (unfold tx; apply applyTx_makeTx).
      rewrite fmap_cons, sum_cons. symmetry. apply add_assoc.
Qed.

(** The loop raises only on an empty directory, before anything is written. *)
Lemma commitLoop_raises batch :
  ∀ i accs written, commitLoop h i batch accs = (written, None) →
  accs = [] ∧ written = [] ∧ batch ≠ [].
Proof.
  intros i accs written Hloop.
  destruct accs as [|a rest].
  - destruct batch as [|p batch]; [discriminate|].
    cbn in Hloop. injection Hloop as <-. done.
  - destruct (commitLoop_spec batch i (a :: rest)) as (accs' & txs & Heq & _); [done|].
    congruence.
Qed.

End Commit.

Lemma setAccounts_same s : setAccounts (accounts s) s = s.
Proof. destruct s. reflexivity. Qed.

(** ** Commit: rejection, atomicity, the empty directory *)

(** C1 (as stated, refuted).  The coffee row is staged for the wallet account
    and that account is deleted before the commit.  No account matches the
    candidate any more, yet the commit returns normally, inserts a transaction
    against account ["1"] and lowers that account's balance from 50000 to
    49750. *)
Lemma commit_after_deletion_not_rejected :
  previewData afterDeletion = Some [coffee] ∧
  Account.id <$> accounts afterDeletion = ["1"] ∧
  Account.balance <$> accounts afterDeletion = [Num 50000] ∧
  transactions afterDeletion = [] ∧
  (∀ a, a ∈ accounts afterDeletion → ¬ nameMatches coffee a) ∧
  ∃ s', confirmTransactions sampleHost afterDeletion = Returned s' ∧
        Transaction.accountId <$> transactions s' = ["1"] ∧
        Account.balance <$> accounts s' = [Num 49750].
Proof.
  split_and!; try reflexivity.
  - intros a Ha. apply list_elem_of_singleton in Ha as ->.
    unfold nameMatches. vm_compute. discriminate.
  - eexists. split; [vm_compute; reflexivity|]. split; reflexivity.
Qed.

(** C1 (amended).  The commit makes no final validation.  On a directory that
    is not empty it never rejects: it returns, clears the batch, inserts one
    transaction per candidate, and a candidate whose hint matches no account
    is recorded against the first account of the directory.  The only failure
    is the [TypeError] on an empty directory, and it leaves the state as it
    was. *)
Theorem commit_never_rejects h s batch :
  previewData s = Some batch →
  (accounts s ≠ [] →
   ∃ s', confirmTransactions h s = Returned s' ∧
         previewData s' = None ∧
         length (transactions s') = length batch + length (transactions s) ∧
         ∀ j p, batch !! j = Some p →
                (∀ a, a ∈ accounts s → ¬ nameMatches p a) →
                ∃ a0 t, accounts s !! 0 = Some a0 ∧
                        transactions s' !! j = Some t ∧
                        Transaction.accountId t = Account.id a0) ∧
  (∀ s', confirmTransactions h s = TypeError s' → accounts s = [] ∧ s' = s).
Proof.
  intros Hbatch. unfold confirmTransactions. rewrite Hbatch. split.
  - intros Hne.
    destruct (commitLoop_spec h batch 0 (accounts s) Hne)
      as (accs' & txs & Hloop & Hlen & _ & _ & Htxs & _).
    rewrite Hloop. eexists. split; [reflexivity|]. split; [reflexivity|].
    cbn [transactions setActiveTab setEntryMode setInputText setPreviewData
         setAccounts setTransactions].
    split; [rewrite length_app, Hlen; reflexivity|].
    intros j p Hj Hno.
    destruct (Htxs j p Hj) as (acc & Hacc & Htx).
    rewrite (accountIndex_default p (accounts s) Hno) in Hacc.
    exists acc, (makeTx h (0 + j) p acc). split; [exact Hacc|].
    split; [|reflexivity].
    apply lookup_app_l_Some. exact Htx.
  - intros s' Hraise.
    destruct (commitLoop h 0 batch (accounts s)) as [written [txs|]] eqn:Hloop;
      [discriminate|].
    apply commitLoop_raises in Hloop as (Hnil & -> & _).
    injection Hraise as <-. split; [exact Hnil|].
    rewrite <- Hnil. apply setAccounts_same.
Qed.

(** The staged coffee row after the wallet was deleted: the commit returns. *)
Lemma commit_never_rejects_witness :
  ∃ s', confirmTransactions sampleHost afterDeletion = Returned s' ∧
        length (transactions s') = 1.
Proof.
  destruct (commit_never_rejects sampleHost afterDeletion [coffee] eq_refl)
    as [Hret _].
  destruct Hret as (s' & Hs' & _ & Hlen & _); [vm_compute; discriminate|].
  exists s'. split; [exact Hs' | exact Hlen].
Defined.

(** C10.  Against an empty directory every hint fails to match, the default
    account [updatedAccounts[0]] is [undefined], and committing any batch that
    is not empty raises a [TypeError] instead of returning; nothing has been
    written. *)
Theorem commit_on_empty_directory_raises h s batch :
  previewData s = Some batch → batch ≠ [] → accounts s = [] →
  (∀ p, p ∈ batch → list_find (nameMatches p) (accounts s) = None
                    ∧ accounts s !! accountIndex p (accounts s) = None) ∧
  confirmTransactions h s = TypeError s.
Proof.
  intros Hbatch Hne Hnil. split.
  - intros p _. rewrite Hnil. split; reflexivity.
  - unfold confirmTransactions. rewrite Hbatch, Hnil.
    destruct batch as [|p rest]; [congruence|].
    cbn. rewrite <- Hnil. f_equal. apply setAccounts_same.
Qed.

(** One staged candidate and no account. *)
Lemma commit_on_empty_directory_raises_witness :
  confirmTransactions sampleHost emptyDirectory = TypeError emptyDirectory.
Proof.
  apply (commit_on_empty_directory_raises sampleHost emptyDirectory [coffee]).
  - reflexivity.
  - discriminate.
  - reflexivity.
Defined.

(** ** Commit: amounts and balance deltas *)

(** C2 (as stated, refuted).  A CSV row with amount [-250] is staged and
    committed as it is: the stored amount is negative, and the expense raises
    the wallet's balance from 2000 to 2250. *)
Lemma commit_stores_negative_amount :
  ∃ s', confirmTransactions sampleHost stagedRefund = Returned s' ∧
        Transaction.amount <$> transactions s' = [Num (-250)] ∧
        ¬ positive (Num (-250)) ∧
        Account.balance <$> accounts s' = [Num 50000; Num 2250].
Proof.
  eexists. split; [vm_compute; reflexivity|].
  split_and!; [reflexivity | | reflexivity].
  simpl. intros Hpos. apply Qlt_not_le in Hpos. apply Hpos. discriminate.
Qed.

(** The effect of the [forEach] callback on one candidate. *)
Lemma commitOne_delta h i p (accs : list Account.t) :
  accs ≠ [] →
  ∃ acc accs' tx,
    commitOne h i p accs = Some (accs', tx) ∧
    accs !! accountIndex p accs = Some acc ∧
    Transaction.amount tx = Parsed.amount p ∧
    Transaction.type tx = Parsed.type p ∧
    Transaction.accountId tx = Account.id acc ∧
    (Parsed.type p = TransactionType.INCOME →
     accs' !! accountIndex p accs =
       Some (Account.withBalance acc (add (Account.balance acc) (Parsed.amount p)))) ∧
    (Parsed.type p ≠ TransactionType.INCOME →
     accs' !! accountIndex p accs =
       Some (Account.withBalance acc (sub (Account.balance acc) (Parsed.amount p)))) ∧
    (∀ k, k ≠ accountIndex p accs → accs' !! k = accs !! k).
Proof.
  intros Hne. destruct (commitOne_Some h i p accs Hne) as (acc & Hacc & Hone).
  exists acc. eexists. eexists. split; [exact Hone|].
  split; [exact Hacc|]. split_and!; try reflexivity.
  - intros Hty. rewrite list_lookup_insert_eq by (eapply lookup_lt_Some; exact Hacc).
    unfold applyTx. cbn [Transaction.type Transaction.amount makeTx].
    rewrite Hty. reflexivity.
  - intros Hty. rewrite list_lookup_insert_eq by (eapply lookup_lt_Some; exact Hacc).
    unfold applyTx. cbn [Transaction.type Transaction.amount makeTx].
    destruct (String.eqb_spec (Parsed.type p) TransactionType.INCOME); [contradiction|].
    reflexivity.
  - intros k Hk. apply list_lookup_insert_ne. congruence.
Qed.

(** C2 (amended).  For every candidate consumed by the commit, the
    transaction inserted for it stores the candidate's amount and type as
    staged (the sign of the amount is not checked) and is recorded against the
    resolved account; when the candidate is processed, that account's balance
    becomes [balance + amount] if the type is INCOME and [balance - amount] for
    EXPENSE, INVESTMENT and every other tag, and no other account changes. *)
Theorem commit_amount_and_delta h s batch :
  previewData s = Some batch → accounts s ≠ [] →
  (∃ s', confirmTransactions h s = Returned s' ∧
         ∀ j p, batch !! j = Some p →
                ∃ t, transactions s' !! j = Some t ∧
                     Transaction.amount t = Parsed.amount p ∧
                     Transaction.type t = Parsed.type p) ∧
  (∀ i p (accs : list Account.t), accs ≠ [] →
     ∃ acc accs' tx,
       commitOne h i p accs = Some (accs', tx) ∧
       accs !! accountIndex p accs = Some acc ∧
       Transaction.amount tx = Parsed.amount p ∧
       Transaction.type tx = Parsed.type p ∧
       Transaction.accountId tx = Account.id acc ∧
       (Parsed.type p = TransactionType.INCOME →
        accs' !! accountIndex p accs =
          Some (Account.withBalance acc (add (Account.balance acc) (Parsed.amount p)))) ∧
       (Parsed.type p ≠ TransactionType.INCOME →
        accs' !! accountIndex p accs =
          Some (Account.withBalance acc (sub (Account.balance acc) (Parsed.amount p)))) ∧
       (∀ k, k ≠ accountIndex p accs → accs' !! k = accs !! k)).
Proof.
  intros Hbatch Hne. split; [|intros i p accs; apply commitOne_delta].
  unfold confirmTransactions. rewrite Hbatch.
  destruct (commitLoop_spec h batch 0 (accounts s) Hne)
    as (accs' & txs & Hloop & _ & _ & _ & Htxs & _).
  rewrite Hloop. eexists. split; [reflexivity|].
  cbn [transactions setActiveTab setEntryMode setInputText setPreviewData
       setAccounts setTransactions].
  intros j p Hj. destruct (Htxs j p Hj) as (acc & _ & Htx).
  exists (makeTx h (0 + j) p acc).
  split; [apply lookup_app_l_Some; exact Htx | split; reflexivity].
Qed.

(** The coffee row: 250 is stored and the wallet goes from 2000 to 1750. *)
Lemma commit_amount_and_delta_witness :
  (∃ s', confirmTransactions sampleHost stagedCoffee = Returned s' ∧
         Transaction.amount <$> transactions s' !! 0 = Some (Num 250)) ∧
  ∃ accs' tx, commitOne sampleHost 0 coffee INITIAL_ACCOUNTS = Some (accs', tx) ∧
              Account.balance <$> accs' !! 1 = Some (Num 1750).
Proof.
  destruct (commit_amount_and_delta sampleHost stagedCoffee [coffee] eq_refl)
    as [(s' & Hs' & Hstored) Hstep]; [discriminate|].
  split.
  - exists s'. split; [exact Hs'|].
    destruct (Hstored 0 coffee eq_refl) as (t & Ht & Hamt & _).
    rewrite Ht. simpl. rewrite Hamt. reflexivity.
  - destruct (Hstep 0 coffee INITIAL_ACCOUNTS)
      as (acc & accs' & tx & Hone & Hacc & _ & _ & _ & _ & Hexp & _); [discriminate|].
    exists accs', tx. split; [exact Hone|].
    change (accountIndex coffee INITIAL_ACCOUNTS) with 1 in Hexp, Hacc.
    rewrite Hexp by discriminate.
    injection Hacc as <-. reflexivity.
Defined.

(** C8.  When every candidate of the batch resolves to an account, the commit
    returns; the ledger grows by exactly the size of the batch; the balance at
    every position of the directory moves by the sum of the signed deltas of
    the candidates resolved to that position, and the total of all balances by
    the sum of all signed deltas; an empty batch leaves the ledger and the
    directory as they were. *)
Theorem commit_batch h s batch :
  previewData s = Some batch →
  Forall (resolves (accounts s)) batch →
  ∃ s', confirmTransactions h s = Returned s' ∧
        length (transactions s') = length batch + length (transactions s) ∧
        (∀ k a, accounts s !! k = Some a →
           ∃ a', accounts s' !! k = Some a' ∧
                 Account.balance a' ≈
                   add (Account.balance a)
                       (sum (candidateDelta <$>
                               filter (λ p, accountIndex p (accounts s) = k) batch))) ∧
        totalBalance (accounts s') ≈
          add (totalBalance (accounts s)) (sum (candidateDelta <$> batch)) ∧
        (batch = [] → transactions s' = transactions s ∧ accounts s' = accounts s).
Proof.
  intros Hbatch Hres. unfold confirmTransactions. rewrite Hbatch.
  destruct batch as [|p rest].
  - cbn. eexists. split; [reflexivity|]. cbn. split_and!; try reflexivity.
    + intros k a Hk. exists a. split; [exact Hk|]. symmetry. apply add_zero_r.
    + symmetry. apply add_zero_r.
    + done.
  - assert (Hne : accounts s ≠ []).
    { apply Forall_cons in Hres as [[a Ha] _]. intros Hnil.
      rewrite Hnil in Ha. discriminate. }
    destruct (commitLoop_spec h (p :: rest) 0 (accounts s) Hne)
      as (accs' & txs & Hloop & Hlen & _ & _ & _ & Hbal & Htot).
    rewrite Hloop. eexists. split; [reflexivity|].
    cbn [transactions accounts setActiveTab setEntryMode setInputText setPreviewData
         setAccounts setTransactions].
    split_and!.
    + rewrite length_app, Hlen. reflexivity.
    + intros k a Hk. destruct (Hbal k a Hk) as (a' & Ha' & _ & Hsum).
      exists a'. split; [exact Ha'|]. rewrite Hsum.
      apply add_proper; [reflexivity|].
      erewrite list_filter_iff; [reflexivity|].
      intros q. simpl. rewrite accountIndex_nameIndex. reflexivity.
    + exact Htot.
    + discriminate.
Qed.

(** The batch holding the coffee row. *)
Lemma commit_batch_witness :
  ∃ s', confirmTransactions sampleHost stagedCoffee = Returned s' ∧
        length (transactions s') = 1.
Proof.
  destruct (commit_batch sampleHost stagedCoffee [coffee] eq_refl)
    as (s' & Hs' & Hlen & _).
  - apply Forall_cons. split; [|apply Forall_nil; exact I].
    exists (Account.mk "2" "u1" "Cash Wallet" "WALLET" (Num 2000)). reflexivity.
  - exists s'. split; [exact Hs' | exact Hlen].
Defined.

(** ** Account resolution *)

(** C4 (as stated, refuted).  The hint ["My Cash Wallet"] contains the name of
    the wallet account, but no account name contains the hint: the candidate
    is not matched to the wallet, it falls to the first account. *)
Lemma hint_containing_name_not_matched :
  cashWallet ∈ INITIAL_ACCOUNTS ∧
  includes (toLowerCase (Parsed.accountNameMatch walletTopUp))
           (toLowerCase (Account.name cashWallet)) = true ∧
  ¬ nameMatches walletTopUp cashWallet ∧
  accountIndex walletTopUp INITIAL_ACCOUNTS = 0 ∧
  ∃ accs' tx, commitOne sampleHost 0 walletTopUp INITIAL_ACCOUNTS = Some (accs', tx) ∧
              Transaction.accountId tx = "1" ∧
              Transaction.accountId tx ≠ Account.id cashWallet.
Proof.
  split_and!.
  - apply list_elem_of_lookup. exists 1. reflexivity.
  - reflexivity.
  - unfold nameMatches. vm_compute. discriminate.
  - reflexivity.
  - eexists. eexists. split; [vm_compute; reflexivity|]. split; [reflexivity|].
    discriminate.
Qed.

(** C4 (amended).  A candidate matches an account when the lower-cased account
    name contains the lower-cased hint (this direction only).  On a directory
    that is not empty the commit records the candidate against the first
    matching account in directory order, and against the first account of the
    directory when none matches; it does not fail. *)
Theorem account_resolution h i p (accs : list Account.t) a0 :
  accs !! 0 = Some a0 →
  ∃ k a accs' tx,
    accountIndex p accs = k ∧ accs !! k = Some a ∧
    commitOne h i p accs = Some (accs', tx) ∧
    Transaction.accountId tx = Account.id a ∧
    ((includes (toLowerCase (Account.name a))
               (toLowerCase (Parsed.accountNameMatch p)) = true ∧
      ∀ j b, accs !! j = Some b → j < k →
             includes (toLowerCase (Account.name b))
                      (toLowerCase (Parsed.accountNameMatch p)) = false) ∨
     (k = 0 ∧ a = a0 ∧
      ∀ b, b ∈ accs →
           includes (toLowerCase (Account.name b))
                    (toLowerCase (Parsed.accountNameMatch p)) = false)).
Proof.
  intros H0.
  assert (Hne : accs ≠ []) by (intros ->; discriminate).
  destruct (commitOne_Some h i p accs Hne) as (acc & Hacc & Hone).
  destruct (accountIndex_lookup p accs Hne) as (a & Ha & Hcase).
  assert (a = acc) as -> by congruence.
  exists (accountIndex p accs), acc. eexists. eexists.
  split; [reflexivity|]. split; [exact Hacc|]. split; [exact Hone|].
  split; [reflexivity|].
  destruct Hcase as [[Hm Hfirst]|[Hzero Hnone]].
  - left. split; [exact Hm|]. intros j b Hj Hlt.
    apply not_true_is_false. exact (Hfirst j b Hj Hlt).
  - right. split; [exact Hzero|]. split; [rewrite Hzero in Hacc; congruence|].
    intros b Hb. apply not_true_is_false. exact (Hnone b Hb).
Qed.

(** The coffee row resolves to the wallet, the second account. *)
Lemma account_resolution_witness :
  ∃ accs' tx, commitOne sampleHost 0 coffee INITIAL_ACCOUNTS = Some (accs', tx) ∧
              Transaction.accountId tx = "2".
Proof.
  destruct (account_resolution sampleHost 0 coffee INITIAL_ACCOUNTS
              (Account.mk "1" "u1" "HDFC Savings" "SAVINGS" (Num 50000)) eq_refl)
    as (k & a & accs' & tx & Hk & Ha & Hone & Hid & _).
  exists accs', tx. split; [exact Hone|].
  rewrite Hid. change (accountIndex coffee INITIAL_ACCOUNTS) with 1 in Hk.
  subst k. injection Ha as <-. reflexivity.
Defined.

(** ** Transfer *)

Lemma findAccount_elem (accs : list Account.t) X :
  X ∈ accs → NoDup (Account.id <$> accs) →
  findAccount (Account.id X) accs = Some X.
Proof.
  intros HX Hnd. unfold findAccount.
  destruct (list_find_elem_of (λ a, Account.id a = Account.id X) accs X HX eq_refl)
    as [[i x] Hfind].
  rewrite Hfind. simpl. f_equal.
  apply list_find_Some in Hfind as (Hi & Hid & _).
  apply list_elem_of_lookup in HX as [j Hj].
  assert (i = j) as ->; [|congruence].
  apply (NoDup_lookup _ i j (Account.id X) Hnd);
    rewrite list_lookup_fmap; [rewrite Hi | rewrite Hj]; simpl; congruence.
Qed.

Lemma totalBalance_transferMap X Y q (accs : list Account.t) :
  NoDup (Account.id <$> accs) → Account.id X ≠ Account.id Y →
  totalBalance (transferMap X Y (Num q) <$> accs) ≈
    add (totalBalance accs) (Num (transferNet X Y q accs)).
Proof.
  intros Hnd Hxy. unfold totalBalance, transferNet.
  induction accs as [|a accs IH].
  - simpl. reflexivity.
  - rewrite fmap_cons in Hnd. apply NoDup_cons in Hnd as [Hfresh Hnd].
    specialize (IH Hnd).
    rewrite !fmap_cons, !sum_cons, IH. clear IH.
    unfold transferMap at 1.
    destruct (String.eqb_spec (Account.id a) (Account.id X)) as [Hax|Hax];
      [|destruct (String.eqb_spec (Account.id a) (Account.id Y)) as [Hay|Hay]].
    + rewrite (decide_True (P := Account.id X ∈ Account.id a :: _))
        by (rewrite Hax; apply list_elem_of_here).
      rewrite (decide_False (P := Account.id X ∈ Account.id <$> accs))
        by (rewrite <- Hax; exact Hfresh).
      assert (Hiff : Account.id Y ∈ Account.id a :: (Account.id <$> accs) ↔
                     Account.id Y ∈ Account.id <$> accs).
      { rewrite elem_of_cons. split; [intros [Heq|H]; [congruence | exact H] | auto]. }
      destruct (decide (Account.id Y ∈ Account.id <$> accs)) as [Hy|Hy].
      * rewrite decide_True by (apply Hiff; exact Hy).
        cbn [Account.balance Account.withBalance].
        destruct (Account.balance a), (sum (Account.balance <$> accs)); simpl; try exact I; lra.
      * rewrite decide_False by (rewrite Hiff; exact Hy).
        cbn [Account.balance Account.withBalance].
        destruct (Account.balance a), (sum (Account.balance <$> accs)); simpl; try exact I; lra.
    + rewrite (decide_True (P := Account.id Y ∈ Account.id a :: _))
        by (rewrite Hay; apply list_elem_of_here).
      rewrite (decide_False (P := Account.id Y ∈ Account.id <$> accs))
        by (rewrite <- Hay; exact Hfresh).
      assert (Hiff : Account.id X ∈ Account.id a :: (Account.id <$> accs) ↔
                     Account.id X ∈ Account.id <$> accs).
      { rewrite elem_of_cons. split; [intros [Heq|H]; [congruence | exact H] | auto]. }
      destruct (decide (Account.id X ∈ Account.id <$> accs)) as [Hx|Hx].
      * rewrite decide_True by (apply Hiff; exact Hx).
        cbn [Account.balance Account.withBalance].
        destruct (Account.balance a), (sum (Account.balance <$> accs)); simpl; try exact I; lra.
      * rewrite decide_False by (rewrite Hiff; exact Hx).
        cbn [Account.balance Account.withBalance].
        destruct (Account.balance a), (sum (Account.balance <$> accs)); simpl; try exact I; lra.
    + assert (HiffX : Account.id X ∈ Account.id a :: (Account.id <$> accs) ↔
                      Account.id X ∈ Account.id <$> accs).
      { rewrite elem_of_cons. split; [intros [Heq|H]; [congruence | exact H] | auto]. }
      assert (HiffY : Account.id Y ∈ Account.id a :: (Account.id <$> accs) ↔
                      Account.id Y ∈ Account.id <$> accs).
      { rewrite elem_of_cons. split; [intros [Heq|H]; [congruence | exact H] | auto]. }
      rewrite (decide_ext _ _ _ _ HiffX), (decide_ext _ _ _ _ HiffY).
      apply add_assoc.
Qed.

Lemma filled_id (v : string) : v ≠ "" → filled (Some v) = Some v.
Proof. intros Hv. destruct v; [congruence | reflexivity]. Qed.

(** C3 (as stated, refuted).  A transfer of amount [0] is stopped by the
    guard on the form: no transaction is created. *)
Lemma transfer_of_zero_creates_nothing :
  hdfcSavings ∈ accounts (transferForm (Num 0)) ∧
  cashWallet ∈ accounts (transferForm (Num 0)) ∧
  handleTransfer sampleHost (transferForm (Num 0)) = transferForm (Num 0) ∧
  transactions (handleTransfer sampleHost (transferForm (Num 0))) = [].
Proof.
  split_and!; try reflexivity.
  - apply list_elem_of_lookup. exists 0. reflexivity.
  - apply list_elem_of_lookup. exists 1. reflexivity.
Qed.

(** C3 (amended).  For two accounts X and Y of a directory with distinct ids,
    X different from Y, and an amount A that is neither zero nor [NaN], the
    transfer lowers X's balance by A, raises Y's balance by A, leaves every
    other account and the total of all balances unchanged, and puts exactly
    one transaction in front of the ledger: an EXPENSE of amount A recorded
    against X with category Transfer and sub-category Internal. *)
Theorem transfer_between_distinct_accounts h s X Y A :
  X ∈ accounts s → Y ∈ accounts s →
  NoDup (Account.id <$> accounts s) →
  Account.id X ≠ Account.id Y →
  Account.id X ≠ "" → Account.id Y ≠ "" →
  truthy A = true →
  transferData s = TransferData.mk (Some (Account.id X)) (Some (Account.id Y)) (Some A) →
  let s' := handleTransfer h s in
  (∀ k, accounts s !! k = Some X →
        accounts s' !! k = Some (Account.withBalance X (sub (Account.balance X) A))) ∧
  (∀ k, accounts s !! k = Some Y →
        accounts s' !! k = Some (Account.withBalance Y (add (Account.balance Y) A))) ∧
  (∀ k a, accounts s !! k = Some a → a ≠ X → a ≠ Y → accounts s' !! k = Some a) ∧
  length (accounts s') = length (accounts s) ∧
  totalBalance (accounts s') ≈ totalBalance (accounts s) ∧
  ∃ tx, transactions s' = tx :: transactions s ∧
        Transaction.accountId tx = Account.id X ∧
        Transaction.amount tx = A ∧
        Transaction.type tx = TransactionType.EXPENSE ∧
        Transaction.category tx = "Transfer" ∧
        Transaction.subCategory tx = "Internal".
Proof.
  intros HX HY Hnd Hxy HXne HYne HA Hform s'.
  assert (Hs' : s' =
    setActiveTab "dashboard"
      (setTransferData TransferData.empty
         (setTransactions (transferTx h X Y A :: transactions s)
            (setAccounts (transferMap X Y A <$> accounts s) s)))).
  { unfold s', handleTransfer. rewrite Hform.
    cbn [TransferData.from TransferData.to TransferData.amount].
    rewrite (filled_id _ HXne), (filled_id _ HYne).
    unfold filledAmount. rewrite HA.
    rewrite (findAccount_elem _ X HX Hnd), (findAccount_elem _ Y HY Hnd).
    reflexivity. }
  rewrite Hs'. clear Hs' s'.
  cbn [accounts transactions setActiveTab setTransferData setTransactions setAccounts].
  assert (Hother : ∀ a, a ∈ accounts s → a ≠ X → Account.id a ≠ Account.id X).
  { intros a Ha Hne Hid. apply Hne.
    pose proof (findAccount_elem _ a Ha Hnd) as Hfa. rewrite Hid in Hfa.
    rewrite (findAccount_elem _ X HX Hnd) in Hfa. congruence. }
  assert (HotherY : ∀ a, a ∈ accounts s → a ≠ Y → Account.id a ≠ Account.id Y).
  { intros a Ha Hne Hid. apply Hne.
    pose proof (findAccount_elem _ a Ha Hnd) as Hfa. rewrite Hid in Hfa.
    rewrite (findAccount_elem _ Y HY Hnd) in Hfa. congruence. }
  split_and!.
  - intros k Hk. rewrite list_lookup_fmap, Hk. simpl. unfold transferMap.
    rewrite String.eqb_refl. reflexivity.
  - intros k Hk. rewrite list_lookup_fmap, Hk. simpl. unfold transferMap.
    destruct (String.eqb_spec (Account.id Y) (Account.id X)); [congruence|].
    rewrite String.eqb_refl. reflexivity.
  - intros k a Hk HaX HaY. rewrite list_lookup_fmap, Hk. simpl. unfold transferMap.
    assert (Ha : a ∈ accounts s) by (apply list_elem_of_lookup; eauto).
    destruct (String.eqb_spec (Account.id a) (Account.id X)) as [e|_];
      [exfalso; exact (Hother a Ha HaX e)|].
    destruct (String.eqb_spec (Account.id a) (Account.id Y)) as [e|_];
      [exfalso; exact (HotherY a Ha HaY e)|].
    reflexivity.
  - apply length_fmap.
  - destruct A as [q|]; [|discriminate].
    rewrite (totalBalance_transferMap X Y q _ Hnd Hxy). unfold transferNet.
    rewrite !decide_True by (apply list_elem_of_fmap; eauto).
    destruct (totalBalance (accounts s)); simpl; [lra | exact I].
  - eexists. split; [reflexivity|]. split_and!; reflexivity.
Qed.

(** 100 from HDFC Savings to Cash Wallet. *)
Lemma transfer_between_distinct_accounts_witness :
  Account.balance <$> accounts (handleTransfer sampleHost (transferForm (Num 100)))
    = [Num 49900; Num 2100] ∧
  length (transactions (handleTransfer sampleHost (transferForm (Num 100)))) = 1.
Proof.
  assert (H1 : hdfcSavings ∈ accounts (transferForm (Num 100)))
    by (apply list_elem_of_lookup; exists 0; reflexivity).
  assert (H2 : cashWallet ∈ accounts (transferForm (Num 100)))
    by (apply list_elem_of_lookup; exists 1; reflexivity).
  assert (Hnd : NoDup (Account.id <$> accounts (transferForm (Num 100)))).
  { change (NoDup ["1"; "2"]). apply NoDup_cons. split; [|apply NoDup_singleton].
    rewrite list_elem_of_singleton. discriminate. }
  destruct (transfer_between_distinct_accounts sampleHost (transferForm (Num 100))
              hdfcSavings cashWallet (Num 100) H1 H2 Hnd)
    as (_ & _ & _ & _ & _ & tx & Htx & _); try discriminate; try reflexivity.
  split; [reflexivity|]. rewrite Htx. reflexivity.
Defined.

(** The case the amended statement leaves out: with the same account on both
    sides of the form, the transfer debits it, credits nothing, and records an
    expense; the total of the directory drops by the amount. *)
Lemma transfer_to_same_account :
  Account.balance <$> accounts (handleTransfer sampleHost selfTransferForm)
    = [Num 49900; Num 2000] ∧
  totalBalance (accounts selfTransferForm) = Num 52000 ∧
  totalBalance (accounts (handleTransfer sampleHost selfTransferForm)) = Num 51900.
Proof. split_and!; reflexivity. Qed.

(** ** CSV import *)

Lemma split_lacks sep s : lacks sep s = true → split sep s = [s].
Proof.
  induction s as [|c s IH]; intros Hl; [reflexivity|].
  simpl in Hl. apply andb_true_iff in Hl as [Hc Hs].
  simpl. apply negb_true_iff in Hc. rewrite Hc, (IH Hs). reflexivity.
Qed.

Lemma split_append sep s rest :
  lacks sep s = true → split sep (s ++ String sep rest) = s :: split sep rest.
Proof.
  induction s as [|c s IH]; intros Hl.
  - simpl. rewrite Ascii.eqb_refl. reflexivity.
  - simpl in Hl. apply andb_true_iff in Hl as [Hc Hs].
    simpl. apply negb_true_iff in Hc. rewrite Hc, (IH Hs). reflexivity.
Qed.

Lemma split_join sep (l : list string) :
  l ≠ [] → Forall (λ f, lacks sep f = true) l → split sep (join sep l) = l.
Proof.
  induction l as [|x l IH]; intros Hne Hall; [congruence|].
  apply Forall_cons in Hall as [Hx Hl].
  destruct l as [|y l].
  - simpl. apply split_lacks. exact Hx.
  - change (join sep (x :: y :: l)) with (x ++ String sep (join sep (y :: l))).
    rewrite (split_append _ _ _ Hx), IH; [reflexivity | discriminate | exact Hl].
Qed.

Lemma lacks_append sep s t :
  lacks sep (s ++ t) = lacks sep s && lacks sep t.
Proof.
  induction s as [|c s IH]; [reflexivity|].
  simpl. rewrite IH. apply andb_assoc.
Qed.

Lemma lacks_join sep c (l : list string) :
  Ascii.eqb c sep = false → Forall (λ f, lacks sep f = true) l →
  lacks sep (join c l) = true.
Proof.
  intros Hc. induction l as [|x l IH]; intros Hall; [reflexivity|].
  apply Forall_cons in Hall as [Hx Hl].
  destruct l as [|y l]; [exact Hx|].
  change (join c (x :: y :: l)) with (x ++ String c (join c (y :: l))).
  rewrite lacks_append, Hx.
  change (lacks sep (String c (join c (y :: l))))
    with (negb (Ascii.eqb c sep) && lacks sep (join c (y :: l))).
  rewrite Hc, (IH Hl). reflexivity.
Qed.

Lemma importRow_join h k (fields : list string) :
  Forall (λ f, lacks "," f = true) fields →
  importRow h k (join "," fields) =
    if 6 <=? length fields then Some (candidateOf h k fields) else None.
Proof.
  intros Hall. destruct fields as [|f fields]; [reflexivity|].
  unfold importRow. rewrite split_join by (discriminate || exact Hall).
  reflexivity.
Qed.

(** C5 (as stated, refuted).  The row of the specification has five fields
    and is skipped: the import stages nothing. *)
Lemma five_field_row_is_skipped :
  length (split "," "2023-10-25,Coffee,250,EXPENSE,Cash Wallet") = 5 ∧
  parseCsv sampleHost fiveFieldCsv = [] ∧
  previewData (handleBulkImport sampleHost fiveFieldCsv initialState) = Some [].
Proof. split_and!; reflexivity. Qed.

(** C5 (amended).  The import ignores the first line of the file and reads
    every following line as [date,description,amount,type,category,accountName]:
    a line with at least six comma-separated fields yields a candidate built
    from its first six fields, a line with fewer is skipped.  The template row
    [2023-10-25,Coffee,250,EXPENSE,Beverages,Cash Wallet] yields a candidate
    with amount 250, type EXPENSE and account hint ["Cash Wallet"], and the
    commit records it against the account named "Cash Wallet" when no earlier
    account of the directory has a name containing that hint. *)
Theorem csv_import h i header (rows : list (list string)) (accs : list Account.t) k a :
  lacks lineFeed header = true →
  Forall (Forall (λ f, lacks "," f = true ∧ lacks lineFeed f = true)) rows →
  accs !! k = Some a → Account.name a = "Cash Wallet" →
  (∀ j b, accs !! j = Some b → j < k → ¬ nameMatches (candidateOf h 0 coffeeFields) b) →
  parseCsv h (join lineFeed (header :: (join "," <$> rows)))
    = importRows h 0 (join "," <$> rows) ∧
  (∀ n fields, fields ∈ rows →
     importRow h n (join "," fields) =
       if 6 <=? length fields then Some (candidateOf h n fields) else None) ∧
  parseCsv h (join lineFeed [header; join "," coffeeFields])
    = [candidateOf h 0 coffeeFields] ∧
  Parsed.amount (candidateOf h 0 coffeeFields) = Num 250 ∧
  Parsed.type (candidateOf h 0 coffeeFields) = TransactionType.EXPENSE ∧
  Parsed.accountNameMatch (candidateOf h 0 coffeeFields) = "Cash Wallet" ∧
  ∃ accs' tx, commitOne h i (candidateOf h 0 coffeeFields) accs = Some (accs', tx) ∧
              Transaction.accountId tx = Account.id a.
Proof.
  intros Hheader Hrows Hk Hname Hfirst.
  assert (Hclean : ∀ fields, fields ∈ rows →
            Forall (λ f, lacks "," f = true) fields ∧
            lacks lineFeed (join "," fields) = true).
  { intros fields Hin. rewrite Forall_forall in Hrows. specialize (Hrows _ Hin).
    split.
    - eapply Forall_impl; [exact Hrows|]. intros f [Hc _]. exact Hc.
    - apply lacks_join; [reflexivity|].
      eapply Forall_impl; [exact Hrows|]. intros f [_ Hn]. exact Hn. }
  split_and!.
  - unfold parseCsv.
    rewrite split_join; [reflexivity | discriminate |].
    apply Forall_cons. split; [exact Hheader|].
    apply Forall_fmap, Forall_forall. intros fields Hin.
    apply (Hclean fields Hin).
  - intros n fields Hin. apply importRow_join. apply (Hclean fields Hin).
  - unfold parseCsv.
    rewrite split_join.
    + reflexivity.
    + discriminate.
    + apply Forall_cons. split; [exact Hheader|].
      apply Forall_cons. split; [reflexivity | apply Forall_nil; exact I].
  - reflexivity.
  - reflexivity.
  - reflexivity.
  - assert (Hne : accs ≠ []) by (intros ->; discriminate).
    destruct (commitOne_Some h i (candidateOf h 0 coffeeFields) accs Hne)
      as (acc & Hacc & Hone).
    assert (Hidx : accountIndex (candidateOf h 0 coffeeFields) accs = k).
    { apply (accountIndex_found _ accs k a Hk); [|exact Hfirst].
      unfold nameMatches. rewrite Hname. reflexivity. }
    rewrite Hidx in Hacc. eexists. eexists. split; [exact Hone|].
    simpl. congruence.
Qed.

(** The template file against the initial directory. *)
Lemma csv_import_witness :
  parseCsv sampleHost coffeeCsv = [coffee] ∧
  ∃ accs' tx, commitOne sampleHost 0 coffee INITIAL_ACCOUNTS = Some (accs', tx) ∧
              Transaction.accountId tx = "2".
Proof.
  destruct (csv_import sampleHost 0 csvHeader [coffeeFields] INITIAL_ACCOUNTS 1 cashWallet)
    as (_ & _ & Hrow & _ & _ & _ & Hcommit).
  - reflexivity.
  - apply Forall_cons. split; [|apply Forall_nil; exact I].
    repeat (apply Forall_cons; split; [split; reflexivity|]). apply Forall_nil. exact I.
  - reflexivity.
  - reflexivity.
  - intros j b Hj Hlt. assert (j = 0) as -> by lia.
    injection Hj as <-. unfold nameMatches. vm_compute. discriminate.
  - split; [exact Hrow | exact Hcommit].
Defined.

(** ** Editing and deleting committed transactions *)

(** C6 (as stated, refuted).  The ledger state satisfies the balance
    invariant.  Deleting the grocery expense, or editing its amount to 200,
    leaves the balance at 48800, and the invariant no longer holds. *)
Lemma edit_and_delete_break_invariant :
  balanced openingBalance ledgerState ∧
  ¬ balanced openingBalance (deleteTransaction groceryTx ledgerState) ∧
  ¬ balanced openingBalance
      (commitChange (editField (EditAmount "200") (startEdit groceryTx ledgerState))).
Proof.
  split_and!.
  - intros a Ha.
    apply elem_of_cons in Ha as [->|Ha];
      [|apply list_elem_of_singleton in Ha as ->]; vm_compute; reflexivity.
  - intros Hbal.
    specialize (Hbal (Account.withBalance hdfcSavings (Num 48800))
                     (list_elem_of_here _ _)).
    vm_compute in Hbal. discriminate.
  - intros Hbal.
    specialize (Hbal (Account.withBalance hdfcSavings (Num 48800))
                     (list_elem_of_here _ _)).
    vm_compute in Hbal. discriminate.
Qed.

(** C6 (amended).  Deleting a committed transaction removes the rows with
    its id from the ledger, and committing an edit replaces the rows with the
    edited id by the edited record; neither operation, nor opening the edit
    modal or changing one of its fields, changes the account directory, so no
    balance is restated. *)
Theorem edit_and_delete_keep_balances t f s :
  accounts (deleteTransaction t s) = accounts s ∧
  transactions (deleteTransaction t s)
    = filter (λ x, Transaction.id x ≠ Transaction.id t) (transactions s) ∧
  accounts (startEdit t s) = accounts s ∧
  accounts (editField f s) = accounts s ∧
  accounts (commitChange s) = accounts s ∧
  totalBalance (accounts (commitChange (editField f (startEdit t s))))
    = totalBalance (accounts s) ∧
  transactions (commitChange (startEdit t s))
    = (λ x, if String.eqb (Transaction.id x) (Transaction.id t) then t else x)
        <$> transactions s.
Proof.
  split_and!; try reflexivity.
  - unfold editField. destruct (editingTransaction s); reflexivity.
  - unfold commitChange. destruct (editingTransaction s); reflexivity.
Qed.

(** ** Duplicate detection *)

Lemma importRows_unflagged h lines : ∀ k, Forall unflagged (importRows h k lines).
Proof.
  induction lines as [|line rest IH]; intros k; [apply Forall_nil; exact I|].
  cbn [importRows]. unfold importRow.
  destruct (6 <=? length (split "," line)).
  - apply Forall_cons. split; [split; reflexivity | apply IH].
  - apply IH.
Qed.

Lemma stageAll_flags h results : ∀ k,
  Parsed.isDuplicate <$> stageAll h k results = Parsed.isDuplicate <$> results ∧
  Parsed.duplicateWarning <$> stageAll h k results = Parsed.duplicateWarning <$> results.
Proof.
  induction results as [|r rest IH]; intros k; [split; reflexivity|].
  destruct (IH (S k)) as [IH1 IH2].
  cbn [stageAll]. rewrite !fmap_cons, IH1, IH2. split; reflexivity.
Qed.

(** C7 (as stated, refuted).  The ledger holds the grocery expense of 1200
    against HDFC Savings on 2024-01-05.  A candidate for the same account, date
    and amount, described "Grocery Shopping at Store", is staged without a
    duplicate flag and without warning text. *)
Lemma restated_expense_is_not_flagged :
  ∃ c, previewData (handleBulkImport sampleHost (groceryCsv "1200") ledgerState)
         = Some [c] ∧
       Parsed.date c = Some (Transaction.date groceryTx) ∧
       Parsed.amount c = Transaction.amount groceryTx ∧
       Account.id <$> accounts ledgerState !! accountIndex c (accounts ledgerState)
         = Some (Transaction.accountId groceryTx) ∧
       includes (toLowerCase (Parsed.description c))
                (toLowerCase (Transaction.description groceryTx)) = true ∧
       Parsed.isDuplicate c = None ∧
       Parsed.duplicateWarning c = None.
Proof. eexists. split; [vm_compute; reflexivity|]. split_and!; reflexivity. Qed.

(** C7 (amended).  Staging makes no duplicate check.  Every candidate staged
    by the CSV import is without duplicate flag and warning text; smart entry
    stages the flags exactly as the extraction service returned them; and what
    either of them stages does not depend on the ledger. *)
Theorem staging_never_flags h svc text txs s :
  (∃ staged, previewData (handleBulkImport h text s) = Some staged ∧
             Forall unflagged staged) ∧
  previewData (handleBulkImport h text (setTransactions txs s))
    = previewData (handleBulkImport h text s) ∧
  previewData (fst (processSmartEntry h svc (setTransactions txs s)))
    = previewData (fst (processSmartEntry h svc s)) ∧
  (∀ results sent,
     nonEmpty (trim (inputText s)) = true →
     parseNaturalLanguageInput h svc (inputText s) (accounts s) (categories s)
       = (Some results, sent) →
     ∃ staged, previewData (fst (processSmartEntry h svc s)) = Some staged ∧
               Parsed.isDuplicate <$> staged = Parsed.isDuplicate <$> results ∧
               Parsed.duplicateWarning <$> staged = Parsed.duplicateWarning <$> results).
Proof.
  split_and!.
  - eexists. split; [reflexivity|]. apply importRows_unflagged.
  - reflexivity.
  - unfold processSmartEntry.
    cbn [inputText accounts categories setTransactions].
    destruct (nonEmpty (trim (inputText s))); [|reflexivity].
    destruct (parseNaturalLanguageInput h svc (inputText s) (accounts s) (categories s))
      as [[results|] sent]; reflexivity.
  - intros results sent Htyped Hparse. unfold processSmartEntry.
    rewrite Htyped, Hparse. eexists. split; [reflexivity|].
    apply stageAll_flags.
Qed.

(** ** Extraction: the fallback *)

Lemma attempt_raises svc r : raises svc r → attempt svc r = Raised.
Proof.
  unfold attempt. intros [Hrej|(text & Hres & Hne & Hparse)].
  - rewrite Hrej. reflexivity.
  - rewrite Hres, Hne, Hparse. reflexivity.
Qed.

Lemma attempt_textless svc r : textless svc r → attempt svc r = NoText.
Proof.
  unfold attempt. intros [Hres|(text & Hres & Hne)].
  - rewrite Hres. reflexivity.
  - rewrite Hres, Hne. reflexivity.
Qed.

Lemma attempt_yields svc r parsed :
  yields svc r parsed → attempt svc r = Parsed_ (toArray parsed).
Proof.
  unfold attempt. intros (text & Hres & Hne & Hparse).
  rewrite Hres, Hne, Hparse. reflexivity.
Qed.

(** C9.  When the primary attempt, the one with the schema, raises, the
    adapter sends exactly one more request, without schema; a single object in
    its answer is wrapped into a one-element array and an array is returned as
    it is; when the second attempt raises or has no text the adapter returns
    [null] without raising, and [processSmartEntry] then leaves the state as it
    was: nothing is staged. *)
Theorem extraction_fallback h svc s :
  raises svc (primaryRequest h (inputText s) (accounts s) (categories s)) →
  let primary := primaryRequest h (inputText s) (accounts s) (categories s) in
  let fallback := fallbackRequest h (inputText s) (accounts s) (categories s) in
  let result := parseNaturalLanguageInput h svc (inputText s) (accounts s) (categories s) in
  snd result = [primary; fallback] ∧
  withSchema primary = true ∧ withSchema fallback = false ∧
  (∀ item, yields svc fallback (JObject item) → fst result = Some [item]) ∧
  (∀ items, yields svc fallback (JArray items) → fst result = Some items) ∧
  (raises svc fallback ∨ textless svc fallback →
   fst result = None ∧ fst (processSmartEntry h svc s) = s).
Proof.
  intros Hprimary primary fallback result.
  apply attempt_raises in Hprimary.
  unfold result, parseNaturalLanguageInput. fold primary fallback.
  fold primary in Hprimary. rewrite Hprimary.
  split_and!; try reflexivity.
  - destruct (attempt svc fallback); reflexivity.
  - intros item Hy. rewrite (attempt_yields _ _ _ Hy). reflexivity.
  - intros items Hy. rewrite (attempt_yields _ _ _ Hy). reflexivity.
  - intros Hfail.
    assert (Hfb : attempt svc fallback = Raised ∨ attempt svc fallback = NoText).
    { destruct Hfail as [Hr|Ht];
        [left; apply attempt_raises | right; apply attempt_textless]; assumption. }
    split.
    + destruct Hfb as [-> | ->]; reflexivity.
    + unfold processSmartEntry, parseNaturalLanguageInput.
      fold primary fallback. rewrite Hprimary.
      destruct (nonEmpty (trim (inputText s))); [|reflexivity].
      destruct Hfb as [-> | ->]; reflexivity.
Qed.

(** A service that rejects every call, and one that answers the retry with a single object. *)
Lemma extraction_fallback_witness :
  fst (processSmartEntry sampleHost deadService typedState) = typedState ∧
  fst (parseNaturalLanguageInput sampleHost objectService (inputText typedState)
         (accounts typedState) (categories typedState)) = Some [coffee].
Proof.
  split.
  - destruct (extraction_fallback sampleHost deadService typedState)
      as (_ & _ & _ & _ & _ & Hnull); [left; reflexivity|].
    destruct Hnull as [_ Hstate]; [left; left; reflexivity|].
    exact Hstate.
  - destruct (extraction_fallback sampleHost objectService typedState)
      as (_ & _ & _ & Hwrap & _); [left; reflexivity|].
    apply Hwrap. exists " {...} ". split_and!; reflexivity.
Defined.

(** Without a raise in the primary attempt there is no second request. *)
Lemma no_fallback_without_raise h svc text accs cats :
  attempt svc (primaryRequest h text accs cats) ≠ Raised →
  snd (parseNaturalLanguageInput h svc text accs cats)
    = [primaryRequest h text accs cats].
Proof.
  intros Hok. unfold parseNaturalLanguageInput.
  destruct (attempt svc (primaryRequest h text accs cats)); [reflexivity.. | congruence].
Qed.

(** * Further properties of the handlers *)

(** ** Commit: what a completed loop has done *)

Lemma sameButBalance_refl a : sameButBalance a a.
Proof. destruct a. reflexivity. Qed.

Lemma commitLoop_Some h batch i (accs accs' : list Account.t) txs :
  commitLoop h i batch accs = (accs', Some txs) →
  length txs = length batch ∧
  Forall2 sameButBalance accs accs' ∧
  (∀ j p, batch !! j = Some p →
     ∃ acc, accs !! accountIndex p accs = Some acc ∧
            txs !! j = Some (makeTx h (i + j) p acc)) ∧
  (∀ k a, accs !! k = Some a →
     ∃ a', accs' !! k = Some a' ∧
           Account.balance a' ≈
             add (Account.balance a)
                 (sum (candidateDelta <$>
                         filter (λ p, accountIndex p accs = k) batch))).
Proof.
  intros Hloop. destruct accs as [|a0 rest].
  - destruct batch as [|p batch]; [|discriminate].
    injection Hloop as <- <-. split_and!; [reflexivity | apply Forall2_nil; exact I | |].
    + intros j p Hj. discriminate.
    + intros k a Hk. discriminate.
  - destruct (commitLoop_spec h batch i (a0 :: rest)) as
      (accs'' & txs' & Heq & Hlen & _ & Hids & Htxs & Hbal & _); [discriminate|].
    rewrite Heq in Hloop. injection Hloop as <- <-.
    split_and!; [exact Hlen | | exact Htxs |].
    + apply Forall2_same_length_lookup_2.
      * apply (f_equal length) in Hids. rewrite !length_fmap in Hids. congruence.
      * intros k a a' Ha Ha'. destruct (Hbal k a Ha) as (a'' & Ha'' & Hrec & _).
        unfold sameButBalance. congruence.
    + intros k a Ha. destruct (Hbal k a Ha) as (a' & Ha' & _ & Hsum).
      exists a'. split; [exact Ha'|]. rewrite Hsum.
      apply add_proper; [reflexivity|].
      erewrite list_filter_iff; [reflexivity|].
      intros q. simpl. rewrite accountIndex_nameIndex. reflexivity.
Qed.

Lemma confirm_Returned h s s' batch :
  previewData s = Some batch → confirmTransactions h s = Returned s' →
  ∃ accs' txs, commitLoop h 0 batch (accounts s) = (accs', Some txs) ∧
               accounts s' = accs' ∧
               transactions s' = (txs ++ transactions s)%list ∧
               previewData s' = None.
Proof.
  intros Hbatch Hret. unfold confirmTransactions in Hret. rewrite Hbatch in Hret.
  destruct (commitLoop h 0 batch (accounts s)) as [accs' [txs|]]; [|discriminate].
  injection Hret as <-. exists accs', txs. split_and!; reflexivity.
Qed.

(** The commit keeps the directory: the same accounts in the same order,
    each with its id, owner, name and type; only balances move. *)
Theorem commit_keeps_directory h s s' :
  confirmTransactions h s = Returned s' →
  Forall2 (λ a a', Account.id a' = Account.id a ∧
                   Account.userId a' = Account.userId a ∧
                   Account.name a' = Account.name a ∧
                   Account.type a' = Account.type a)
          (accounts s) (accounts s').
Proof.
  intros Hret.
  assert (Hshape : Forall2 sameButBalance (accounts s) (accounts s')).
  { destruct (previewData s) as [batch|] eqn:Hbatch.
    - destruct (confirm_Returned h s s' batch Hbatch Hret) as (accs' & txs & Hloop & -> & _).
      apply (commitLoop_Some _ _ _ _ _ _ Hloop).
    - unfold confirmTransactions in Hret. rewrite Hbatch in Hret.
      injection Hret as <-. apply Forall_Forall2_diag, Forall_forall.
      intros a _. apply sameButBalance_refl. }
  eapply Forall2_impl; [exact Hshape|].
  intros a a' ->. split_and!; reflexivity.
Qed.

(** The staged coffee row against the initial directory. *)
Lemma commit_keeps_directory_witness :
  ∃ s', confirmTransactions sampleHost stagedCoffee = Returned s' ∧
        Forall2 (λ a a', Account.id a' = Account.id a ∧
                         Account.userId a' = Account.userId a ∧
                         Account.name a' = Account.name a ∧
                         Account.type a' = Account.type a)
                (accounts stagedCoffee) (accounts s').
Proof.
  eexists. split; [vm_compute; reflexivity|].
  apply (commit_keeps_directory sampleHost stagedCoffee).
  vm_compute. reflexivity.
Defined.

(** The rows a commit inserts stand before all older rows, one per
    candidate and in the order of the batch; each carries the candidate's
    description, category and sub-category, and the candidate's date, or the
    clock's ISO time when that date is missing or empty. *)
Theorem commit_prepends_in_order h s s' batch :
  previewData s = Some batch →
  confirmTransactions h s = Returned s' →
  ∃ newTxs,
    transactions s' = (newTxs ++ transactions s)%list ∧
    Forall2 (λ p t, Transaction.description t = Parsed.description p ∧
                    Transaction.category t = Parsed.category p ∧
                    Transaction.subCategory t = Parsed.subCategory p ∧
                    Transaction.date t =
                      match Parsed.date p with
                      | Some d => if nonEmpty d then d else isoNow h
                      | None => isoNow h
                      end)
            batch newTxs.
Proof.
  intros Hbatch Hret.
  destruct (confirm_Returned h s s' batch Hbatch Hret) as (accs' & txs & Hloop & _ & Htx & _).
  exists txs. split; [exact Htx|].
  destruct (commitLoop_Some _ _ _ _ _ _ Hloop) as (Hlen & _ & Htxs & _).
  apply Forall2_same_length_lookup_2; [congruence|].
  intros j p t Hp Ht. destruct (Htxs j p Hp) as (acc & _ & Ht').
  assert (t = makeTx h (0 + j) p acc) as -> by congruence.
  split_and!; reflexivity.
Qed.

Lemma commit_prepends_in_order_witness :
  ∃ s' newTxs,
    confirmTransactions sampleHost stagedCoffee = Returned s' ∧
    transactions s' = (newTxs ++ transactions stagedCoffee)%list ∧
    length newTxs = 1.
Proof.
  destruct (confirmTransactions sampleHost stagedCoffee) as [s'|s'] eqn:Hret;
    [|vm_compute in Hret; discriminate].
  exists s'.
  destruct (commit_prepends_in_order sampleHost stagedCoffee _ [coffee] eq_refl Hret)
    as (newTxs & Heq & Hall).
  exists newTxs. split; [reflexivity|]. split; [exact Heq|].
  apply Forall2_length in Hall. symmetry. exact Hall.
Defined.

(** ** Commit: the ids it assigns *)





(** ** Commit: references and the balance invariant *)

(** A commit keeps every ledger row recorded against an account of the
    directory: the rows it inserts carry the id of an existing account, and it
    removes no account. *)
Theorem commit_preserves_references h s s' :
  referenced s → confirmTransactions h s = Returned s' → referenced s'.
Proof.
  intros Href Hret.
  destruct (previewData s) as [batch|] eqn:Hbatch.
  - destruct (confirm_Returned h s s' batch Hbatch Hret)
      as (accs' & txs & Hloop & Haccs & Htx & _).
    destruct (commitLoop_Some _ _ _ _ _ _ Hloop) as (Hlen & Hshape & Htxs & _).
    assert (Hids : Account.id <$> accounts s' = Account.id <$> accounts s).
    { rewrite Haccs. clear -Hshape.
      induction Hshape as [|a a' l l' Ha _ IH]; [reflexivity|].
      rewrite !fmap_cons, IH, Ha. reflexivity. }
    intros t Ht. rewrite Hids. rewrite Htx in Ht.
    apply elem_of_app in Ht as [Ht|Ht]; [|apply Href; exact Ht].
    apply list_elem_of_lookup in Ht as [j Hj].
    assert (is_Some (batch !! j)) as [p Hp].
    { apply lookup_lt_is_Some. rewrite <- Hlen. eapply lookup_lt_Some. exact Hj. }
    destruct (Htxs j p Hp) as (acc & Hacc & Ht').
    assert (t = makeTx h (0 + j) p acc) as -> by congruence.
    apply list_elem_of_fmap. exists acc. split; [reflexivity|].
    apply list_elem_of_lookup. eauto.
  - unfold confirmTransactions in Hret. rewrite Hbatch in Hret.
    injection Hret as <-. exact Href.
Qed.

Lemma commit_preserves_references_witness :
  ∃ s', confirmTransactions sampleHost stagedCoffee = Returned s' ∧ referenced s'.
Proof.
  destruct (confirmTransactions sampleHost stagedCoffee) as [s'|s'] eqn:Hret;
    [|vm_compute in Hret; discriminate].
  exists s'. split; [reflexivity|].
  apply (commit_preserves_references sampleHost stagedCoffee s'); [|exact Hret].
  intros t Ht. apply elem_of_nil in Ht. contradiction.
Defined.

Lemma fmap_filter_Forall2 {A B C} (R : A → B → Prop) (f : A → C) (g : B → C)
    (P : A → Prop) (Q : B → Prop) `{∀ x, Decision (P x)} `{∀ y, Decision (Q y)}
    (l1 : list A) (l2 : list B) :
  (∀ x y, R x y → f x = g y ∧ (P x ↔ Q y)) →
  Forall2 R l1 l2 →
  f <$> filter P l1 = g <$> filter Q l2.
Proof.
  intros HR Hall. induction Hall as [|x y l1 l2 Hxy _ IH]; [reflexivity|].
  destruct (HR x y Hxy) as [Hfg Hiff].
  rewrite !filter_cons.
  destruct (decide (P x)) as [HP|HP].
  - rewrite decide_True by (apply Hiff; exact HP).
    rewrite !fmap_cons, IH, Hfg. reflexivity.
  - rewrite decide_False by (rewrite <- Hiff; exact HP). exact IH.
Qed.

(** With distinct account ids, the rows a commit inserts against an account
    are those of the candidates resolved to its position. *)
Lemma applied_new_rows h batch i (accs accs' : list Account.t) txs k a :
  NoDup (Account.id <$> accs) →
  commitLoop h i batch accs = (accs', Some txs) →
  accs !! k = Some a →
  signedDelta <$> appliedTo (Account.id a) txs =
  candidateDelta <$> filter (λ p, accountIndex p accs = k) batch.
Proof.
  intros Hnd Hloop Ha.
  destruct (commitLoop_Some _ _ _ _ _ _ Hloop) as (Hlen & _ & Htxs & _).
  unfold appliedTo.
  apply (fmap_filter_Forall2
           (λ t p, ∃ j acc, accs !! accountIndex p accs = Some acc ∧
                            t = makeTx h j p acc)).
  - intros t p (j & acc & Hacc & ->). split; [reflexivity|].
    cbn [Transaction.accountId makeTx]. split.
    + intros Hid.
      apply (NoDup_lookup _ _ _ (Account.id a) Hnd).
      * rewrite list_lookup_fmap, Hacc. simpl. congruence.
      * rewrite list_lookup_fmap, Ha. reflexivity.
    + intros Hk. rewrite Hk in Hacc. congruence.
  - apply Forall2_same_length_lookup_2; [exact Hlen|].
    intros j t p Ht Hp. destruct (Htxs j p Hp) as (acc & Hacc & Ht').
    exists (i + j), acc. split; [exact Hacc | congruence].
Qed.

(** In a directory with distinct account ids, a commit keeps the balance
    invariant: if every balance was the opening balance plus the deltas of the
    rows recorded against the account, it still is afterwards. *)
Theorem commit_preserves_balanced h opening s s' :
  NoDup (Account.id <$> accounts s) →
  balanced opening s →
  confirmTransactions h s = Returned s' →
  balanced opening s'.
Proof.
  intros Hnd Hbal Hret.
  destruct (previewData s) as [batch|] eqn:Hbatch.
  - destruct (confirm_Returned h s s' batch Hbatch Hret)
      as (accs' & txs & Hloop & Haccs & Htx & _).
    destruct (commitLoop_Some _ _ _ _ _ _ Hloop) as (_ & Hshape & _ & Hsum).
    intros a' Ha'. rewrite Haccs in Ha'.
    apply list_elem_of_lookup in Ha' as [k Hk'].
    destruct (Forall2_lookup_r _ _ _ _ _ Hshape Hk') as (a & Hk & Hsame).
    destruct (Hsum k a Hk) as (a'' & Hk'' & Hnew).
    assert (a'' = a') as -> by congruence.
    assert (Hid : Account.id a' = Account.id a) by (rewrite Hsame; reflexivity).
    rewrite Hnew, Hid, Htx.
    rewrite (Hbal a) by (apply list_elem_of_lookup; eauto).
    unfold appliedTo at 2. rewrite filter_app, fmap_app, sum_app.
    fold (appliedTo (Account.id a) txs). fold (appliedTo (Account.id a) (transactions s)).
    rewrite (applied_new_rows h batch 0 (accounts s) accs' txs k a Hnd Hloop Hk).
    rewrite <- add_assoc. apply add_proper; [reflexivity | apply add_comm].
  - unfold confirmTransactions in Hret. rewrite Hbatch in Hret.
    injection Hret as <-. exact Hbal.
Qed.

Lemma commit_preserves_balanced_witness :
  ∃ s', confirmTransactions sampleHost stagedCoffee = Returned s' ∧
        balanced openingBalance s'.
Proof.
  destruct (confirmTransactions sampleHost stagedCoffee) as [s'|s'] eqn:Hret;
    [|vm_compute in Hret; discriminate].
  exists s'. split; [reflexivity|].
  apply (commit_preserves_balanced sampleHost openingBalance stagedCoffee s');
    [| |exact Hret].
  - change (NoDup ["1"; "2"]). apply NoDup_cons. split; [|apply NoDup_singleton].
    rewrite list_elem_of_singleton. discriminate.
  - intros a Ha.
    apply elem_of_cons in Ha as [->|Ha];
      [|apply list_elem_of_singleton in Ha as ->]; vm_compute; reflexivity.
Defined.

(** ** Commit: amounts that are not numbers *)

Lemma same_NaN x : x ≈ NaN → x = NaN.
Proof. destruct x; [contradiction | reflexivity]. Qed.

Lemma sum_NaN (l : list number) : NaN ∈ l → sum l = NaN.
Proof.
  induction l as [|x l IH]; intros Hin; [apply elem_of_nil in Hin; contradiction|].
  rewrite sum_cons. apply elem_of_cons in Hin as [<-|Hin]; [reflexivity|].
  rewrite (IH Hin). destruct x; reflexivity.
Qed.

Lemma candidateDelta_NaN p : Parsed.amount p = NaN → candidateDelta p = NaN.
Proof.
  intros Hp. unfold candidateDelta. rewrite Hp.
  destruct (String.eqb _ _); reflexivity.
Qed.

(** No amount is checked: after a commit the balance of an account is [NaN]
    when it was [NaN] before, or when one of the candidates resolved to the
    account has the amount [NaN] (as an amount field without a number gives). *)
Theorem commit_spreads_NaN h s s' batch k a :
  previewData s = Some batch →
  confirmTransactions h s = Returned s' →
  accounts s !! k = Some a →
  Account.balance a = NaN ∨
  (∃ p, p ∈ batch ∧ accountIndex p (accounts s) = k ∧ Parsed.amount p = NaN) →
  ∃ a', accounts s' !! k = Some a' ∧ Account.balance a' = NaN.
Proof.
  intros Hbatch Hret Hk Hnan.
  destruct (confirm_Returned h s s' batch Hbatch Hret)
    as (accs' & txs & Hloop & Haccs & _).
  destruct (commitLoop_Some _ _ _ _ _ _ Hloop) as (_ & _ & _ & Hsum).
  destruct (Hsum k a Hk) as (a' & Hk' & Hnew).
  exists a'. split; [rewrite Haccs; exact Hk'|].
  apply same_NaN. rewrite Hnew.
  destruct Hnan as [-> | (p & Hp & Hidx & Hamt)]; [reflexivity|].
  rewrite (sum_NaN (candidateDelta <$> _)).
  - destruct (Account.balance a); reflexivity.
  - apply list_elem_of_fmap. exists p. split; [symmetry; apply candidateDelta_NaN; exact Hamt|].
    apply list_elem_of_filter. split; [exact Hidx | exact Hp].
Qed.

(** A row whose amount field is ["n/a"], imported and committed: the
    wallet's balance is [NaN]. *)
Lemma commit_spreads_NaN_witness :
  ∃ s' a', confirmTransactions sampleHost stagedJunk = Returned s' ∧
           accounts s' !! 1 = Some a' ∧ Account.balance a' = NaN.
Proof.
  destruct (confirmTransactions sampleHost stagedJunk) as [s'|s'] eqn:Hret;
    [|vm_compute in Hret; discriminate].
  destruct (commit_spreads_NaN sampleHost stagedJunk s'
              [candidateOf sampleHost 0
                 ["2023-10-25"; "Coffee"; "n/a"; "EXPENSE"; "Beverages"; "Cash Wallet"]]
              1 cashWallet eq_refl Hret eq_refl) as (a' & Ha' & Hnan).
  - right. eexists. split; [apply list_elem_of_here|]. split; reflexivity.
  - exists s', a'. split; [reflexivity|]. split; [exact Ha' | exact Hnan].
Defined.

(** ** Resolution of a hint that is an account name *)





(** ** Account maintenance *)

Lemma balanceOrZero_number o : ∃ q, balanceOrZero o = Num q.
Proof.
  unfold balanceOrZero, filledAmount.
  destruct o as [[q|]|]; simpl; try (exists 0%Q; reflexivity).
  destruct (Qeq_bool q 0); simpl; [exists 0%Q | exists q]; reflexivity.
Qed.

(** Saving the form of a new account (a name, no id) appends one account and
    closes the form: the accounts already listed and the ledger stay as they
    are, the new account carries the name of the form, and its balance is the
    balance of the form when that is a number other than zero, and zero
    otherwise; it is never [NaN]. *)
Theorem updateAccount_appends h d s name :
  AccountDraft.name d = Some name → name ≠ "" →
  filled (AccountDraft.id d) = None →
  ∃ newAcc q,
    updateAccount h (Some d) s = (setAccounts (accounts s ++ [newAcc]) s, None) ∧
    Account.name newAcc = name ∧
    Account.balance newAcc = Num q ∧
    (∀ b, AccountDraft.balance d = Some b → truthy b = true → Account.balance newAcc = b) ∧
    (AccountDraft.balance d = None → Account.balance newAcc = zero) ∧
    transactions (fst (updateAccount h (Some d) s)) = transactions s.
Proof.
  intros Hname Hne Hid. unfold updateAccount.
  rewrite Hname, (filled_id _ Hne), Hid.
  destruct (balanceOrZero_number (AccountDraft.balance d)) as [q Hq].
  eexists. exists q. split; [reflexivity|].
  cbn [Account.name Account.balance asAccount fst transactions setAccounts].
  rewrite Hname. split_and!; try reflexivity.
  - exact Hq.
  - intros b Hb Htruthy. unfold balanceOrZero, filledAmount. rewrite Hb, Htruthy. reflexivity.
  - intros Hb. unfold balanceOrZero, filledAmount. rewrite Hb. reflexivity.
Qed.

Lemma updateAccount_appends_witness :
  Account.name <$> accounts (fst (updateAccount sampleHost (Some pettyCashDraft) initialState))
    = ["HDFC Savings"; "Cash Wallet"; "Petty Cash"].
Proof.
  destruct (updateAccount_appends sampleHost pettyCashDraft initialState "Petty Cash")
    as (newAcc & q & Heq & Hname & _); [reflexivity | discriminate | reflexivity |].
  rewrite Heq. cbn [fst accounts setAccounts initialState].
  rewrite fmap_app. cbn [fmap list_fmap]. rewrite Hname. reflexivity.
Defined.

(** A new account changes the resolution of no hint that already matched an
    account: the candidate is still recorded at the same position. *)
Theorem new_account_keeps_resolution h d s p a :
  filled (AccountDraft.id d) = None →
  a ∈ accounts s → nameMatches p a →
  accountIndex p (accounts (fst (updateAccount h (Some d) s)))
    = accountIndex p (accounts s).
Proof.
  intros Hid Ha Hm. unfold updateAccount.
  destruct (filled (AccountDraft.name d)); [|reflexivity].
  rewrite Hid. cbn [fst accounts setAccounts].
  unfold accountIndex.
  destruct (list_find_elem_of (nameMatches p) (accounts s) a Ha Hm) as [[i x] Hfind].
  rewrite Hfind, (list_find_app_l _ _ _ _ _ Hfind). reflexivity.
Qed.

Lemma new_account_keeps_resolution_witness :
  accountIndex coffee
    (accounts (fst (updateAccount sampleHost (Some pettyCashDraft) initialState))) = 1.
Proof.
  rewrite (new_account_keeps_resolution sampleHost pettyCashDraft initialState coffee
             cashWallet eq_refl).
  - reflexivity.
  - apply list_elem_of_lookup. exists 1. reflexivity.
  - reflexivity.
Defined.

Lemma asAccount_ofAccount a : asAccount (AccountDraft.ofAccount a) = a.
Proof. destruct a. reflexivity. Qed.

(** Opening the form of an account of the directory and saving it unchanged
    leaves the state as it was, when the ids of the directory are distinct and
    the account has a name and an id. *)
Theorem updateAccount_unchanged_form h s a :
  a ∈ accounts s → NoDup (Account.id <$> accounts s) →
  Account.name a ≠ "" → Account.id a ≠ "" →
  updateAccount h (Some (AccountDraft.ofAccount a)) s = (s, None).
Proof.
  intros Ha Hnd Hname Hid. unfold updateAccount.
  cbn [AccountDraft.name AccountDraft.id AccountDraft.ofAccount].
  rewrite (filled_id _ Hname), (filled_id _ Hid), asAccount_ofAccount.
  assert (Hmap : (λ x, if String.eqb (Account.id x) (Account.id a) then a else x)
                   <$> accounts s = accounts s).
  { transitivity (id <$> accounts s); [|apply list_fmap_id].
    apply list_fmap_ext. intros k x Hx. simpl.
    destruct (String.eqb_spec (Account.id x) (Account.id a)) as [Heq|_]; [|reflexivity].
    assert (Hxin : x ∈ accounts s) by (apply list_elem_of_lookup; eauto).
    pose proof (findAccount_elem _ x Hxin Hnd) as Hfx.
    rewrite Heq, (findAccount_elem _ a Ha Hnd) in Hfx. congruence. }
  rewrite Hmap, setAccounts_same. reflexivity.
Qed.

Lemma updateAccount_unchanged_form_witness :
  updateAccount sampleHost (Some (AccountDraft.ofAccount cashWallet)) initialState
    = (initialState, None).
Proof.
  apply updateAccount_unchanged_form.
  - apply list_elem_of_lookup. exists 1. reflexivity.
  - change (NoDup ["1"; "2"]). apply NoDup_cons. split; [|apply NoDup_singleton].
    rewrite list_elem_of_singleton. discriminate.
  - discriminate.
  - discriminate.
Defined.

(** ** Account deletion *)

(** Deleting an account, when the dialog is confirmed, leaves no account
    with that id and no ledger row recorded against it, and keeps every ledger
    row recorded against an account of the directory; when the dialog is
    dismissed the state is as it was. *)
Theorem deleteAccount_keeps_references confirmed id s :
  referenced s →
  referenced (deleteAccount confirmed id s) ∧
  (confirmed = true →
   (id ∉ (Account.id <$> accounts (deleteAccount confirmed id s))) ∧
   ∀ t, t ∈ transactions (deleteAccount confirmed id s) → Transaction.accountId t ≠ id) ∧
  (confirmed = false → deleteAccount confirmed id s = s).
Proof.
  intros Href. destruct confirmed; cbn [deleteAccount].
  - split_and!.
    + intros t Ht. cbn [transactions accounts setTransactions setAccounts] in *.
      apply list_elem_of_filter in Ht as [Hne Ht].
      specialize (Href t Ht). apply list_elem_of_fmap in Href as (a & Hid & Ha).
      apply list_elem_of_fmap. exists a. split; [exact Hid|].
      apply list_elem_of_filter. split; [congruence | exact Ha].
    + intros _. cbn [transactions accounts setTransactions setAccounts]. split.
      * intros Hin. apply list_elem_of_fmap in Hin as (a & Hid & Ha).
        apply list_elem_of_filter in Ha as [Hne _]. congruence.
      * intros t Ht. apply list_elem_of_filter in Ht as [Hne _]. exact Hne.
    + discriminate.
  - split_and!; [exact Href | discriminate | reflexivity].
Qed.

Lemma deleteAccount_keeps_references_witness :
  referenced (deleteAccount true "1" ledgerState) ∧
  transactions (deleteAccount true "1" ledgerState) = [].
Proof.
  destruct (deleteAccount_keeps_references true "1" ledgerState) as (Href & _ & _).
  - intros t Ht. apply list_elem_of_singleton in Ht as ->.
    apply list_elem_of_here.
  - split; [exact Href | reflexivity].
Defined.

(** Deleting an account keeps the balance invariant of the accounts that
    remain. *)
Theorem deleteAccount_preserves_balanced opening confirmed id s :
  balanced opening s → balanced opening (deleteAccount confirmed id s).
Proof.
  intros Hbal. destruct confirmed; [|exact Hbal].
  intros a Ha. cbn [deleteAccount transactions accounts setTransactions setAccounts] in *.
  apply list_elem_of_filter in Ha as [Hne Ha].
  rewrite (Hbal a Ha). apply add_proper; [reflexivity|].
  unfold appliedTo. rewrite list_filter_filter.
  erewrite list_filter_iff; [reflexivity|].
  intros t. simpl. split; [|intros [H1 _]; exact H1]. intros Ht. split; [exact Ht | congruence].
Qed.

Lemma deleteAccount_preserves_balanced_witness :
  balanced openingBalance (deleteAccount true "2" ledgerState).
Proof.
  apply deleteAccount_preserves_balanced.
  intros a Ha.
  apply elem_of_cons in Ha as [->|Ha];
    [|apply list_elem_of_singleton in Ha as ->]; vm_compute; reflexivity.
Defined.

(** ** Transfer: guards, the directory, the same account twice *)

Lemma filled_Some o v : filled o = Some v → o = Some v ∧ v ≠ "".
Proof.
  destruct o as [w|]; [|discriminate]. simpl.
  destruct w; [discriminate|]. intros [= <-]. split; [reflexivity | discriminate].
Qed.

Lemma filledAmount_Some o v : filledAmount o = Some v → o = Some v ∧ truthy v = true.
Proof.
  destruct o as [w|]; [|discriminate]. simpl.
  destruct (truthy w) eqn:Hw; [|discriminate]. intros [= <-]. split; [reflexivity | exact Hw].
Qed.

Lemma findAccount_Some id (accs : list Account.t) a :
  findAccount id accs = Some a → a ∈ accs ∧ Account.id a = id.
Proof.
  unfold findAccount. destruct (list_find _ accs) as [[i x]|] eqn:Hfind; [|discriminate].
  intros [= <-]. apply list_find_Some in Hfind as (Hi & Hid & _).
  split; [apply list_elem_of_lookup; eauto | exact Hid].
Qed.

(** The transfer changes the state only when the form names a source and a
    target that are accounts of the directory and an amount that is neither
    zero nor [NaN]; in every other case it returns the state as it is. *)
Theorem transfer_guards h s :
  handleTransfer h s ≠ s →
  ∃ X Y A,
    TransferData.from (transferData s) = Some (Account.id X) ∧
    TransferData.to (transferData s) = Some (Account.id Y) ∧
    TransferData.amount (transferData s) = Some A ∧
    X ∈ accounts s ∧ Y ∈ accounts s ∧
    Account.id X ≠ "" ∧ Account.id Y ≠ "" ∧ truthy A = true.
Proof.
  unfold handleTransfer. intros Hchanged.
  destruct (filled (TransferData.from (transferData s))) as [from|] eqn:Hfrom; [|congruence].
  destruct (filled (TransferData.to (transferData s))) as [to|] eqn:Hto; [|congruence].
  destruct (filledAmount (TransferData.amount (transferData s))) as [A|] eqn:HA; [|congruence].
  destruct (findAccount from (accounts s)) as [X|] eqn:HX; [|congruence].
  destruct (findAccount to (accounts s)) as [Y|] eqn:HY; [|congruence].
  apply filled_Some in Hfrom as [Hfrom Hfne], Hto as [Hto Htne].
  apply filledAmount_Some in HA as [HA Htruthy].
  apply findAccount_Some in HX as [HXin HXid], HY as [HYin HYid].
  exists X, Y, A. rewrite HXid, HYid. split_and!; assumption.
Qed.

Lemma transfer_guards_witness :
  ∃ X Y A,
    TransferData.from (transferData (transferForm (Num 100))) = Some (Account.id X) ∧
    TransferData.to (transferData (transferForm (Num 100))) = Some (Account.id Y) ∧
    TransferData.amount (transferData (transferForm (Num 100))) = Some A ∧
    X ∈ accounts (transferForm (Num 100)) ∧ Y ∈ accounts (transferForm (Num 100)) ∧
    Account.id X ≠ "" ∧ Account.id Y ≠ "" ∧ truthy A = true.
Proof.
  apply (transfer_guards sampleHost).
  intros Heq. apply (f_equal transactions) in Heq. vm_compute in Heq. discriminate.
Defined.

Lemma transferMap_fields X Y A a :
  Account.id (transferMap X Y A a) = Account.id a ∧
  Account.name (transferMap X Y A a) = Account.name a.
Proof.
  unfold transferMap.
  destruct (String.eqb _ _); [split; reflexivity|].
  destruct (String.eqb _ _); split; reflexivity.
Qed.

(** A transfer keeps the ids and the names of the directory, in order, and
    keeps every ledger row recorded against an account of the directory. *)
Theorem transfer_keeps_references h s :
  referenced s →
  referenced (handleTransfer h s) ∧
  Account.id <$> accounts (handleTransfer h s) = Account.id <$> accounts s ∧
  Account.name <$> accounts (handleTransfer h s) = Account.name <$> accounts s.
Proof.
  intros Href. unfold handleTransfer.
  destruct (filled (TransferData.from (transferData s))) as [from|]; [|done].
  destruct (filled (TransferData.to (transferData s))) as [to|]; [|done].
  destruct (filledAmount (TransferData.amount (transferData s))) as [A|]; [|done].
  destruct (findAccount from (accounts s)) as [X|] eqn:HX; [|done].
  destruct (findAccount to (accounts s)) as [Y|]; [|done].
  cbn [accounts transactions setActiveTab setTransferData setTransactions setAccounts].
  assert (Hids : Account.id <$> (transferMap X Y A <$> accounts s) = Account.id <$> accounts s).
  { rewrite <- list_fmap_compose. apply list_fmap_ext. intros k a _.
    apply transferMap_fields. }
  split_and!.
  - intros t Ht. unfold referenced in Href.
    cbn [accounts transactions setActiveTab setTransferData setTransactions setAccounts] in *.
    rewrite Hids. apply elem_of_cons in Ht as [->|Ht]; [|apply Href; exact Ht].
    apply findAccount_Some in HX as [HXin _].
    apply list_elem_of_fmap. exists X. split; [reflexivity | exact HXin].
  - exact Hids.
  - rewrite <- list_fmap_compose. apply list_fmap_ext. intros k a _.
    apply transferMap_fields.
Qed.

Lemma transfer_keeps_references_witness :
  referenced (handleTransfer sampleHost (transferForm (Num 100))).
Proof.
  apply (transfer_keeps_references sampleHost (transferForm (Num 100))).
  intros t Ht. apply elem_of_nil in Ht. contradiction.
Defined.

#[global] Instance sub_proper : Proper (same ==> same ==> same) sub.
Proof.
  intros [p|] [p'|] Hp [q|] [q'|] Hq; simpl in *; try tauto.
  rewrite Hp, Hq. reflexivity.
Qed.

Lemma transferMap_self_other X A (l : list Account.t) :
  Account.id X ∉ (Account.id <$> l) → transferMap X X A <$> l = l.
Proof.
  induction l as [|a l IH]; intros Hnot; [reflexivity|].
  rewrite fmap_cons in Hnot. apply not_elem_of_cons in Hnot as [Hne Hnot].
  rewrite fmap_cons, (IH Hnot). f_equal. unfold transferMap.
  destruct (String.eqb_spec (Account.id a) (Account.id X)); [congruence | reflexivity].
Qed.

(** With the same account on both sides of the form, the transfer debits
    the account and credits nothing: its balance goes down by the amount, every
    other account keeps its balance, the total of the directory goes down by
    the amount, and one EXPENSE row is recorded against the account. *)
Theorem transfer_to_itself h s X A :
  X ∈ accounts s →
  NoDup (Account.id <$> accounts s) →
  Account.id X ≠ "" → truthy A = true →
  transferData s = TransferData.mk (Some (Account.id X)) (Some (Account.id X)) (Some A) →
  ∃ l1 l2 tx,
    accounts s = (l1 ++ X :: l2)%list ∧
    accounts (handleTransfer h s)
      = (l1 ++ Account.withBalance X (sub (Account.balance X) A) :: l2)%list ∧
    totalBalance (accounts (handleTransfer h s)) ≈ sub (totalBalance (accounts s)) A ∧
    transactions (handleTransfer h s) = tx :: transactions s ∧
    Transaction.accountId tx = Account.id X ∧
    Transaction.amount tx = A ∧
    Transaction.type tx = TransactionType.EXPENSE.
Proof.
  intros HX Hnd Hid HA Hform.
  destruct (list_elem_of_split _ _ HX) as (l1 & l2 & Hsplit).
  exists l1, l2, (transferTx h X X A).
  assert (Hs' : handleTransfer h s =
    setActiveTab "dashboard"
      (setTransferData TransferData.empty
         (setTransactions (transferTx h X X A :: transactions s)
            (setAccounts (transferMap X X A <$> accounts s) s)))).
  { unfold handleTransfer. rewrite Hform.
    cbn [TransferData.from TransferData.to TransferData.amount].
    rewrite (filled_id _ Hid). unfold filledAmount. rewrite HA.
    rewrite (findAccount_elem _ X HX Hnd). reflexivity. }
  rewrite Hs'.
  cbn [accounts transactions setActiveTab setTransferData setTransactions setAccounts].
  assert (Hmap : transferMap X X A <$> accounts s
                 = (l1 ++ Account.withBalance X (sub (Account.balance X) A) :: l2)%list).
  { rewrite Hsplit in Hnd |- *. rewrite fmap_app, fmap_cons in Hnd.
    apply NoDup_app in Hnd as (_ & Hdisj & Hnd2).
    apply NoDup_cons in Hnd2 as [HX2 _].
    rewrite fmap_app, fmap_cons.
    rewrite (transferMap_self_other X A l2 HX2).
    rewrite (transferMap_self_other X A l1).
    - unfold transferMap at 1. rewrite String.eqb_refl. reflexivity.
    - intros Hin. apply (Hdisj _ Hin). apply list_elem_of_here. }
  split; [exact Hsplit|]. split; [exact Hmap|]. split_and!; try reflexivity.
  rewrite Hmap, Hsplit. unfold totalBalance.
  rewrite !fmap_app, !fmap_cons, !sum_app, !sum_cons.
  cbn [Account.balance Account.withBalance].
  destruct A as [q|]; [|discriminate].
  destruct (sum (Account.balance <$> l1)), (Account.balance X),
    (sum (Account.balance <$> l2)); simpl; try exact I; lra.
Qed.

Lemma transfer_to_itself_witness :
  totalBalance (accounts (handleTransfer sampleHost selfTransferForm))
    ≈ sub (totalBalance (accounts selfTransferForm)) (Num 100).
Proof.
  destruct (transfer_to_itself sampleHost selfTransferForm hdfcSavings (Num 100))
    as (l1 & l2 & tx & _ & _ & Htotal & _).
  - apply list_elem_of_here.
  - change (NoDup ["1"; "2"]). apply NoDup_cons. split; [|apply NoDup_singleton].
    rewrite list_elem_of_singleton. discriminate.
  - discriminate.
  - reflexivity.
  - reflexivity.
  - exact Htotal.
Defined.

(** ** CSV import: what is staged *)

Lemma importRows_shape h lines : ∀ k,
  Parsed.id <$> importRows h k lines
    = (λ n, Some (randomId h n)) <$> seq k (length (filter accepted lines)) ∧
  Parsed.description <$> importRows h k lines
    = (λ line, nth 1 (split "," line) "") <$> filter accepted lines.
Proof.
  induction lines as [|line rest IH]; intros k; [split; reflexivity|].
  cbn [importRows]. unfold importRow. rewrite filter_cons.
  destruct (6 <=? length (split "," line)) eqn:Hsix.
  - apply Nat.leb_le in Hsix. rewrite decide_True by exact Hsix.
    destruct (IH (S k)) as [IH1 IH2].
    cbn [length seq]. rewrite !fmap_cons, IH1, IH2. split; reflexivity.
  - apply Nat.leb_gt in Hsix. rewrite decide_False by (unfold accepted; lia).
    apply IH.
Qed.

(** The import stages one candidate for every line after the first that has
    at least six comma-separated fields, in the order of the file; the
    candidates take the successive draws of the random source as ids and the
    second field of their line as description, and they replace whatever
    batch was staged before. *)
Theorem csv_import_stages_accepted_lines h text s :
  ∃ staged,
    previewData (handleBulkImport h text s) = Some staged ∧
    length staged = length (filter accepted (tail (split lineFeed text))) ∧
    Parsed.id <$> staged = (λ n, Some (randomId h n)) <$> seq 0 (length staged) ∧
    Parsed.description <$> staged
      = (λ line, nth 1 (split "," line) "")
          <$> filter accepted (tail (split lineFeed text)).
Proof.
  exists (parseCsv h text). split; [reflexivity|].
  unfold parseCsv.
  destruct (importRows_shape h (tail (split lineFeed text)) 0) as [Hids Hdesc].
  assert (Hlen : length (importRows h 0 (tail (split lineFeed text)))
                 = length (filter accepted (tail (split lineFeed text)))).
  { apply (f_equal length) in Hdesc. rewrite !length_fmap in Hdesc. exact Hdesc. }
  split; [exact Hlen|]. split; [rewrite Hlen; exact Hids | exact Hdesc].
Qed.

Lemma append_sep_assoc (a : string) sep r t :
  ((a ++ String sep r) ++ t)%string = (a ++ String sep (r ++ t))%string.
Proof.
  induction a as [|c a IH]; [reflexivity|].
  change (String c ((a ++ String sep r) ++ t) = String c (a ++ String sep (r ++ t)))%string.
  f_equal. exact IH.
Qed.

Lemma trimEnd_append_ws s c :
  isWhiteSpace c = true → trimEnd (s ++ String c "") = trimEnd s.
Proof.
  intros Hc. induction s as [|a s IH].
  - change (trimEnd (String c "") = ""). cbn [trimEnd]. rewrite Hc. reflexivity.
  - change (trimEnd (String a (s ++ String c "")) = trimEnd (String a s)).
    cbn [trimEnd]. rewrite IH. reflexivity.
Qed.

Lemma trim_append_ws s c :
  isWhiteSpace c = true → trim (s ++ String c "") = trim s.
Proof.
  intros Hc. unfold trim. induction s as [|a s IH].
  - change (trimEnd (trimStart (String c "")) = "").
    cbn [trimStart]. rewrite Hc. reflexivity.
  - change (trimEnd (trimStart (String a (s ++ String c ""))) = trimEnd (trimStart (String a s))).
    cbn [trimStart]. destruct (isWhiteSpace a); [exact IH|].
    apply (trimEnd_append_ws (String a s) c Hc).
Qed.

Lemma isWhiteSpace_not_comma c : isWhiteSpace c = true → Ascii.eqb c "," = false.
Proof.
  intros Hc. destruct (Ascii.eqb_spec c ","%char) as [->|]; [discriminate | reflexivity].
Qed.

(** A white-space character after a line of exactly six fields, such as the
    carriage return of a file with Windows line endings, changes nothing: the
    line yields the same candidate. *)
Theorem csv_trailing_whitespace_ignored h k f0 f1 f2 f3 f4 f5 c :
  Forall (λ f, lacks "," f = true) [f0; f1; f2; f3; f4; f5] →
  isWhiteSpace c = true →
  importRow h k (join "," [f0; f1; f2; f3; f4; f5] ++ String c "")
    = Some (candidateOf h k [f0; f1; f2; f3; f4; f5]) ∧
  importRow h k (join "," [f0; f1; f2; f3; f4; f5])
    = Some (candidateOf h k [f0; f1; f2; f3; f4; f5]).
Proof.
  intros Hall Hc. split; [|rewrite (importRow_join h k _ Hall); reflexivity].
  assert (Hjoin : (join "," [f0; f1; f2; f3; f4; f5] ++ String c "")%string
                  = join "," [f0; f1; f2; f3; f4; (f5 ++ String c "")%string]).
  { cbn [join]. rewrite !append_sep_assoc. reflexivity. }
  rewrite Hjoin, importRow_join.
  - cbn [length Nat.leb]. unfold candidateOf. cbn [nth].
    rewrite (trim_append_ws f5 c Hc). reflexivity.
  - repeat (apply Forall_cons in Hall as [? Hall]).
    repeat (apply Forall_cons; split; [assumption|]).
    apply Forall_cons. split; [|apply Forall_nil; exact I].
    rewrite lacks_append. cbn [lacks].
    rewrite (isWhiteSpace_not_comma c Hc). cbn [negb andb].
    rewrite andb_true_r. assumption.
Qed.

Lemma csv_trailing_whitespace_ignored_witness :
  importRow sampleHost 0
    ("2023-10-25,Coffee,250,EXPENSE,Beverages,Cash Wallet" ++ String carriageReturn "")
    = Some coffee.
Proof.
  destruct (csv_trailing_whitespace_ignored sampleHost 0
              "2023-10-25" "Coffee" "250" "EXPENSE" "Beverages" "Cash Wallet"
              carriageReturn) as [Hcr _].
  - repeat (apply Forall_cons; split; [reflexivity|]). apply Forall_nil. exact I.
  - reflexivity.
  - exact Hcr.
Defined.

(** ** Rows removed and replaced by id *)

Lemma filter_all {A} (P : A → Prop) `{∀ x, Decision (P x)} (l : list A) :
  (∀ y, y ∈ l → P y) → filter P l = l.
Proof.
  induction l as [|x l IH]; intros Hall; [reflexivity|].
  rewrite filter_cons_True by (apply Hall, list_elem_of_here).
  f_equal. apply IH. intros y Hy. apply Hall, list_elem_of_further, Hy.
Qed.

Lemma unique_key_elsewhere {A B} (f : A → B) (l1 : list A) x l2 :
  NoDup (f <$> (l1 ++ x :: l2)%list) →
  (∀ y, y ∈ l1 → f y ≠ f x) ∧ (∀ y, y ∈ l2 → f y ≠ f x).
Proof.
  rewrite fmap_app, fmap_cons. intros Hnd.
  apply NoDup_app in Hnd as (_ & Hdisj & Hnd2).
  apply NoDup_cons in Hnd2 as [Hx2 _]. split.
  - intros y Hy Heq. apply (Hdisj (f y)).
    + apply list_elem_of_fmap. exists y. split; [reflexivity | exact Hy].
    + rewrite Heq. apply list_elem_of_here.
  - intros y Hy Heq. apply Hx2. rewrite <- Heq.
    apply list_elem_of_fmap. exists y. split; [reflexivity | exact Hy].
Qed.

Lemma filter_remove_unique {A B} `{EqDecision B} (f : A → B) (l1 : list A) x l2 :
  NoDup (f <$> (l1 ++ x :: l2)%list) →
  filter (λ y, f y ≠ f x) (l1 ++ x :: l2)%list = (l1 ++ l2)%list.
Proof.
  intros Hnd. destruct (unique_key_elsewhere f l1 x l2 Hnd) as [H1 H2].
  rewrite filter_app, filter_cons_False by (intros Hne; apply Hne; reflexivity).
  rewrite (filter_all _ l1 H1), (filter_all _ l2 H2). reflexivity.
Qed.

Lemma fmap_replace_unique {A} (f : A → string) (l1 : list A) x e l2 :
  NoDup (f <$> (l1 ++ x :: l2)%list) → f e = f x →
  (λ y, if String.eqb (f y) (f e) then e else y) <$> (l1 ++ x :: l2)%list
    = (l1 ++ e :: l2)%list.
Proof.
  intros Hnd He. destruct (unique_key_elsewhere f l1 x l2 Hnd) as [H1 H2].
  assert (Hkeep : ∀ l : list A, (∀ y, y ∈ l → f y ≠ f x) →
            (λ y, if String.eqb (f y) (f e) then e else y) <$> l = l).
  { intros l Hl. transitivity (id <$> l); [|apply list_fmap_id].
    apply list_fmap_ext. intros k y Hy. simpl.
    destruct (String.eqb_spec (f y) (f e)) as [Heq|_]; [|reflexivity].
    exfalso. apply (Hl y); [apply list_elem_of_lookup; eauto | congruence]. }
  rewrite fmap_app, fmap_cons, (Hkeep l1 H1), (Hkeep l2 H2).
  rewrite He, String.eqb_refl. reflexivity.
Qed.

(** When the staged rows have distinct ids, the remove button of a row takes
    out that row and no other: the rows before and after it stay, in order. *)
Theorem removeStaged_removes_one p s l1 l2 :
  previewData s = Some (l1 ++ p :: l2)%list →
  NoDup (Parsed.id <$> (l1 ++ p :: l2)%list) →
  removeStaged p s = Returned (setPreviewData (Some (l1 ++ l2)%list) s).
Proof.
  intros Hbatch Hnd. unfold removeStaged. rewrite Hbatch.
  rewrite (filter_remove_unique Parsed.id l1 p l2 Hnd). reflexivity.
Qed.

Lemma removeStaged_removes_one_witness :
  removeStaged coffee stagedCoffee = Returned (setPreviewData (Some []) stagedCoffee).
Proof.
  apply (removeStaged_removes_one coffee stagedCoffee [] []).
  - reflexivity.
  - apply NoDup_singleton.
Defined.

(** When the ledger rows have distinct ids, the delete button of a row takes
    out that row and no other; the directory is not touched. *)
Theorem deleteTransaction_removes_one t s l1 l2 :
  transactions s = (l1 ++ t :: l2)%list →
  NoDup (Transaction.id <$> (l1 ++ t :: l2)%list) →
  deleteTransaction t s = setTransactions (l1 ++ l2)%list s.
Proof.
  intros Hledger Hnd. unfold deleteTransaction. rewrite Hledger.
  rewrite (filter_remove_unique Transaction.id l1 t l2 Hnd). reflexivity.
Qed.

Lemma deleteTransaction_removes_one_witness :
  deleteTransaction groceryTx ledgerState = setTransactions [] ledgerState.
Proof.
  apply (deleteTransaction_removes_one groceryTx ledgerState [] []).
  - reflexivity.
  - apply NoDup_singleton.
Defined.

Lemma editField_startEdit f t s :
  editField f (startEdit t s) = setEditingTransaction (Some (applyEditField f t)) s.
Proof. destruct f; reflexivity. Qed.

(** When the ledger rows have distinct ids, editing one field of a row in the
    modal and committing the change replaces that row in place by the edited
    record, which keeps the row's id; every other row stays, and the modal is
    closed. *)
Theorem commitChange_replaces_one t f s l1 l2 :
  transactions s = (l1 ++ t :: l2)%list →
  NoDup (Transaction.id <$> (l1 ++ t :: l2)%list) →
  commitChange (editField f (startEdit t s))
    = setEditingTransaction None
        (setTransactions (l1 ++ applyEditField f t :: l2)%list s) ∧
  Transaction.id (applyEditField f t) = Transaction.id t.
Proof.
  intros Hledger Hnd.
  assert (Hid : Transaction.id (applyEditField f t) = Transaction.id t)
    by (destruct f; reflexivity).
  split; [|exact Hid].
  rewrite editField_startEdit. unfold commitChange.
  cbn [editingTransaction transactions setEditingTransaction].
  rewrite Hledger.
  rewrite (fmap_replace_unique Transaction.id l1 t (applyEditField f t) l2 Hnd Hid).
  reflexivity.
Qed.

Lemma commitChange_replaces_one_witness :
  Transaction.amount <$>
    transactions (commitChange (editField (EditAmount "200") (startEdit groceryTx ledgerState)))
    = [Num 200].
Proof.
  destruct (commitChange_replaces_one groceryTx (EditAmount "200") ledgerState [] [])
    as [Heq _].
  - reflexivity.
  - apply NoDup_singleton.
  - rewrite Heq. reflexivity.
Defined.

(** What is edited in a staged row is what the commit records: after a field
    of row [i] was changed, the commit inserts for that row a ledger row with
    the description, amount and date of the edited candidate. *)
Theorem staged_edit_is_committed h i f s batch p :
  previewData s = Some batch → batch !! i = Some p → accounts s ≠ [] →
  ∃ s1 s2 t,
    editStaged i f s = Returned s1 ∧
    confirmTransactions h s1 = Returned s2 ∧
    transactions s2 !! i = Some t ∧
    Transaction.description t = Parsed.description (withStagedField f p) ∧
    Transaction.amount t = Parsed.amount (withStagedField f p) ∧
    Transaction.date t = dateOr h (Parsed.date (withStagedField f p)).
Proof.
  intros Hbatch Hp Hne.
  set (batch' := <[i := withStagedField f p]> batch).
  destruct (commitLoop_spec h batch' 0 (accounts s) Hne)
    as (accs' & txs & Hloop & _ & _ & _ & Htxs & _).
  assert (Hp' : batch' !! i = Some (withStagedField f p)).
  { apply list_lookup_insert_eq. eapply lookup_lt_Some. exact Hp. }
  destruct (Htxs i _ Hp') as (acc & _ & Ht).
  eexists. eexists. exists (makeTx h (0 + i) (withStagedField f p) acc).
  split; [unfold editStaged; rewrite Hbatch, Hp; reflexivity|].
  split.
  - unfold confirmTransactions.
    cbn [previewData accounts setPreviewData]. fold batch'. rewrite Hloop. reflexivity.
  - cbn [transactions setActiveTab setEntryMode setInputText setPreviewData
         setAccounts setTransactions].
    split; [apply lookup_app_l_Some; exact Ht|]. split_and!; reflexivity.
Qed.

Lemma staged_edit_is_committed_witness :
  ∃ s1 s2 t,
    editStaged 0 (StagedAmount "300") stagedCoffee = Returned s1 ∧
    confirmTransactions sampleHost s1 = Returned s2 ∧
    transactions s2 !! 0 = Some t ∧ Transaction.amount t = Num 300.
Proof.
  destruct (staged_edit_is_committed sampleHost 0 (StagedAmount "300") stagedCoffee
              [coffee] coffee eq_refl eq_refl)
    as (s1 & s2 & t & H1 & H2 & H3 & _ & H4 & _); [discriminate|].
  exists s1, s2, t. split_and!; [exact H1 | exact H2 | exact H3 | rewrite H4; reflexivity].
Defined.

(** ** Extraction: requests and staging *)

(** The adapter sends one request with the schema and at most one more,
    without it; the second is sent only when the first attempt raised.  A first
    response without text ends the call with the empty array and no second
    request, and only a call of two requests can return [null]. *)
Theorem extraction_requests h svc text accs cats :
  let primary := primaryRequest h text accs cats in
  let fallback := fallbackRequest h text accs cats in
  let result := parseNaturalLanguageInput h svc text accs cats in
  ((snd result = [primary] ∧ attempt svc primary ≠ Raised ∧ is_Some (fst result)) ∨
   (snd result = [primary; fallback] ∧ attempt svc primary = Raised)) ∧
  withSchema primary = true ∧ withSchema fallback = false ∧
  (textless svc primary → result = (Some [], [primary])).
Proof.
  intros primary fallback result. unfold result, parseNaturalLanguageInput.
  fold primary fallback. split_and!; try reflexivity.
  - destruct (attempt svc primary) eqn:Hp.
    + left. split_and!; [reflexivity | discriminate | eexists; reflexivity].
    + left. split_and!; [reflexivity | discriminate | eexists; reflexivity].
    + right. destruct (attempt svc fallback); split; reflexivity.
  - intros Ht. rewrite (attempt_textless _ _ Ht). reflexivity.
Qed.

Lemma stageAll_shape h results : ∀ k,
  Parsed.id <$> stageAll h k results
    = (λ n, Some (randomId h n)) <$> seq k (length results) ∧
  Forall2 (λ r c, c = Parsed.withId r (default "" (Parsed.id c))) results (stageAll h k results).
Proof.
  induction results as [|r rest IH]; intros k; [split; [reflexivity | apply Forall2_nil; exact I]|].
  destruct (IH (S k)) as [IH1 IH2]. cbn [stageAll length seq].
  rewrite !fmap_cons, IH1. split; [reflexivity|].
  apply Forall2_cons. split; [reflexivity | exact IH2].
Qed.

(** Smart entry on an input that is not blank and an extraction that returns
    candidates stages exactly those candidates, in order: each gets the next
    draw of the random source as its id and keeps every other field; the
    directory and the ledger are not touched. *)
Theorem smart_entry_stages_results h svc s results sent :
  nonEmpty (trim (inputText s)) = true →
  parseNaturalLanguageInput h svc (inputText s) (accounts s) (categories s)
    = (Some results, sent) →
  ∃ staged,
    processSmartEntry h svc s = (setPreviewData (Some staged) s, sent) ∧
    Parsed.id <$> staged = (λ n, Some (randomId h n)) <$> seq 0 (length results) ∧
    Forall2 (λ r c, c = Parsed.withId r (default "" (Parsed.id c))) results staged ∧
    accounts (fst (processSmartEntry h svc s)) = accounts s ∧
    transactions (fst (processSmartEntry h svc s)) = transactions s.
Proof.
  intros Htyped Hparse. exists (stageAll h 0 results).
  unfold processSmartEntry. rewrite Htyped, Hparse.
  destruct (stageAll_shape h results 0) as [Hids Hall].
  split_and!; [reflexivity | exact Hids | exact Hall | reflexivity | reflexivity].
Qed.

Lemma smart_entry_stages_results_witness :
  ∃ staged,
    previewData (fst (processSmartEntry sampleHost objectService typedState)) = Some staged ∧
    Parsed.id <$> staged = [Some "r0"].
Proof.
  destruct (smart_entry_stages_results sampleHost objectService typedState [coffee]
              [primaryRequest sampleHost (inputText typedState) (accounts typedState) [];
               fallbackRequest sampleHost (inputText typedState) (accounts typedState) []])
    as (staged & Heq & Hids & _); [reflexivity | reflexivity |].
  exists staged. rewrite Heq. split; [reflexivity | exact Hids].
Defined.

(** A blank input sends no request and changes nothing. *)
Lemma smart_entry_blank_input h svc s :
  nonEmpty (trim (inputText s)) = false → processSmartEntry h svc s = (s, []).
Proof. intros Hblank. unfold processSmartEntry. rewrite Hblank. reflexivity. Qed.

(** ** The price index *)




(** Auto-fill never touches what the user typed: the item name, the price,
    the quantity and the sale flag of the form stay as they are.  It sends no
    request for an empty item name and at most two otherwise, the first with
    the schema; and when the prediction is [null] the form is unchanged. *)
Theorem autoFillPrice_keeps_entries svc d :
  let result := autoFillPrice svc d in
  PriceDraft.itemName (fst result) = PriceDraft.itemName d ∧
  PriceDraft.price (fst result) = PriceDraft.price d ∧
  PriceDraft.quantity (fst result) = PriceDraft.quantity d ∧
  PriceDraft.saleStatus (fst result) = PriceDraft.saleStatus d ∧
  length (snd result) ≤ 2 ∧
  schema <$> snd result = take (length (snd result)) [true; false] ∧
  (filled (PriceDraft.itemName d) = None → result = (d, [])) ∧
  (∀ item, filled (PriceDraft.itemName d) = Some item →
           fst (predictItemDetails svc item) = None → fst result = d).
Proof.
  intros result. unfold result, autoFillPrice.
  destruct (filled (PriceDraft.itemName d)) as [item|].
  - assert (Hsent : ∃ r, predictItemDetails svc item = r ∧
                       (schema <$> snd r = [true] ∨ schema <$> snd r = [true; false])).
    { eexists. split; [reflexivity|]. unfold predictItemDetails, predictRetry.
      repeat (match goal with
              | |- context [match ?x with _ => _ end] => destruct x
              end; simpl); auto. }
    destruct Hsent as ([p sent] & Hr & Hsent). rewrite Hr. simpl in Hsent.
    assert (Hlen : length sent ≤ 2 ∧ schema <$> sent = take (length sent) [true; false]).
    { destruct Hsent as [Hs|Hs]; pose proof (f_equal length Hs) as Hl;
        rewrite length_fmap in Hl; simpl in Hl; rewrite Hl, Hs; split; (lia || reflexivity). }
    destruct p as [p|]; cbn [fst snd PriceDraft.itemName PriceDraft.price
                             PriceDraft.quantity PriceDraft.saleStatus];
      split_and!; try reflexivity; try apply Hlen; try discriminate;
      try (intros; reflexivity).
    intros item' [= <-]. rewrite Hr. discriminate.
  - cbn [fst snd length]. split_and!; try reflexivity; try lia; discriminate.
Qed.

(** ** The dashboard *)

Lemma foldl_add_sum {A} (f : A → number) (l : list A) : ∀ acc,
  foldl (λ s x, add s (f x)) acc l ≈ add acc (sum (f <$> l)).
Proof.
  induction l as [|x l IH]; intros acc.
  - symmetry. apply add_zero_r.
  - cbn [foldl]. rewrite IH, fmap_cons, sum_cons. symmetry. apply add_assoc.
Qed.

Lemma reduceAmounts_cons t txs :
  reduceAmounts (t :: txs) ≈ add (reduceAmounts txs) (Transaction.amount t).
Proof.
  unfold reduceAmounts. rewrite !foldl_add_sum, fmap_cons, sum_cons.
  rewrite !add_zero_l. apply add_comm.
Qed.

Lemma netWorth_totalBalance accs : netWorth accs ≈ totalBalance accs.
Proof. unfold netWorth, totalBalance. rewrite foldl_add_sum. apply add_zero_l. Qed.

(** The profit and loss figures count the EXPENSE and INCOME rows of the
    period only: they are the figures of the ledger without every row that has
    another tag, such as INVESTMENT, or a date that is invalid or before the
    cutoff. *)
Theorem stats_count_expense_and_income_only c txs :
  dashboardStats c txs =
  dashboardStats c
    (filter (λ t, inPeriod c t ∧
                  (Transaction.type t = TransactionType.EXPENSE ∨
                   Transaction.type t = TransactionType.INCOME)) txs).
Proof.
  assert (Hkind : ∀ kind,
            kind = TransactionType.EXPENSE ∨ kind = TransactionType.INCOME →
            filter (λ t, Transaction.type t = kind) (filter (inPeriod c) txs) =
            filter (λ t, Transaction.type t = kind)
              (filter (inPeriod c)
                 (filter (λ t, inPeriod c t ∧
                               (Transaction.type t = TransactionType.EXPENSE ∨
                                Transaction.type t = TransactionType.INCOME)) txs))).
  { intros kind Hkind. rewrite !list_filter_filter.
    apply list_filter_iff. intros t. simpl.
    destruct Hkind as [-> | ->]; tauto. }
  unfold dashboardStats.
  rewrite <- (Hkind TransactionType.EXPENSE) by (left; reflexivity).
  rewrite <- (Hkind TransactionType.INCOME) by (right; reflexivity).
  reflexivity.
Qed.

Lemma handleTransfer_success h s X Y A :
  X ∈ accounts s → Y ∈ accounts s →
  NoDup (Account.id <$> accounts s) →
  Account.id X ≠ "" → Account.id Y ≠ "" →
  truthy A = true →
  transferData s = TransferData.mk (Some (Account.id X)) (Some (Account.id Y)) (Some A) →
  handleTransfer h s =
    setActiveTab "dashboard"
      (setTransferData TransferData.empty
         (setTransactions (transferTx h X Y A :: transactions s)
            (setAccounts (transferMap X Y A <$> accounts s) s))).
Proof.
  intros HX HY Hnd HXne HYne HA Hform. unfold handleTransfer. rewrite Hform.
  cbn [TransferData.from TransferData.to TransferData.amount].
  rewrite (filled_id _ HXne), (filled_id _ HYne).
  unfold filledAmount. rewrite HA.
  rewrite (findAccount_elem _ X HX Hnd), (findAccount_elem _ Y HY Hnd).
  reflexivity.
Qed.

(** A transfer between two different accounts leaves the net worth figure
    as it is, but it is recorded as an EXPENSE dated now: when now lies in the
    period, the expenses of the period go up by the amount, the income stays,
    and the reported net goes down by the amount. *)
Theorem transfer_shows_as_expense h c s X Y A ms :
  X ∈ accounts s → Y ∈ accounts s →
  NoDup (Account.id <$> accounts s) →
  Account.id X ≠ Account.id Y →
  Account.id X ≠ "" → Account.id Y ≠ "" →
  truthy A = true →
  transferData s = TransferData.mk (Some (Account.id X)) (Some (Account.id Y)) (Some A) →
  timeOf c (isoNow h) = Some ms → (cutoff c <= ms)%Z →
  let before := dashboardStats c (transactions s) in
  let after := dashboardStats c (transactions (handleTransfer h s)) in
  netWorth (accounts (handleTransfer h s)) ≈ netWorth (accounts s) ∧
  expenses after ≈ add (expenses before) A ∧
  income after = income before ∧
  net after ≈ sub (net before) A.
Proof.
  intros HX HY Hnd Hxy HXne HYne HA Hform Htime Hcut before after.
  unfold before, after.
  rewrite (handleTransfer_success h s X Y A HX HY Hnd HXne HYne HA Hform).
  cbn [accounts transactions setActiveTab setTransferData setTransactions setAccounts].
  assert (Hin : inPeriod c (transferTx h X Y A)).
  { unfold inPeriod. cbn [Transaction.date transferTx]. rewrite Htime. exact Hcut. }
  assert (Hexp : expenses (dashboardStats c (transferTx h X Y A :: transactions s))
                 ≈ add (expenses (dashboardStats c (transactions s))) A).
  { unfold dashboardStats. cbn [expenses].
    rewrite (filter_cons_True (inPeriod c)) by exact Hin.
    rewrite filter_cons_True by reflexivity.
    apply reduceAmounts_cons. }
  assert (Hinc : income (dashboardStats c (transferTx h X Y A :: transactions s))
                 = income (dashboardStats c (transactions s))).
  { unfold dashboardStats. cbn [income].
    rewrite (filter_cons_True (inPeriod c)) by exact Hin.
    rewrite filter_cons_False by discriminate. reflexivity. }
  split_and!.
  - rewrite !netWorth_totalBalance.
    destruct A as [q|]; [|discriminate].
    rewrite (totalBalance_transferMap X Y q _ Hnd Hxy). unfold transferNet.
    rewrite !decide_True by (apply list_elem_of_fmap; eauto).
    destruct (totalBalance (accounts s)); simpl; [lra | exact I].
  - exact Hexp.
  - exact Hinc.
  - change (net (dashboardStats c (transferTx h X Y A :: transactions s)))
      with (sub (income (dashboardStats c (transferTx h X Y A :: transactions s)))
                (expenses (dashboardStats c (transferTx h X Y A :: transactions s)))).
    change (net (dashboardStats c (transactions s)))
      with (sub (income (dashboardStats c (transactions s)))
                (expenses (dashboardStats c (transactions s)))).
    rewrite Hinc, Hexp.
    destruct A as [q|]; [|discriminate].
    destruct (income (dashboardStats c (transactions s))),
             (expenses (dashboardStats c (transactions s))); simpl; try exact I; lra.
Qed.

Lemma transfer_shows_as_expense_witness :
  expenses (dashboardStats wideCalendar
              (transactions (handleTransfer sampleHost (transferForm (Num 100)))))
    ≈ add (expenses (dashboardStats wideCalendar (transactions (transferForm (Num 100)))))
          (Num 100).
Proof.
  assert (H1 : hdfcSavings ∈ accounts (transferForm (Num 100)))
    by (apply list_elem_of_lookup; exists 0; reflexivity).
  assert (H2 : cashWallet ∈ accounts (transferForm (Num 100)))
    by (apply list_elem_of_lookup; exists 1; reflexivity).
  assert (Hnd : NoDup (Account.id <$> accounts (transferForm (Num 100)))).
  { change (NoDup ["1"; "2"]). apply NoDup_cons. split; [|apply NoDup_singleton].
    rewrite list_elem_of_singleton. discriminate. }
  refine (proj1 (proj2 (transfer_shows_as_expense sampleHost wideCalendar
                          (transferForm (Num 100)) hdfcSavings cashWallet (Num 100)
                          1704448800000%Z H1 H2 Hnd _ _ _ _ _ _ _)));
    try discriminate; reflexivity.
Defined.

(** ** Handlers run twice *)

(** A second run of the commit, as a second click on the button gives,
    records nothing more: the first run has cleared the batch, and the second
    returns the state as it finds it. *)
Theorem commit_twice_records_once h h' s s' :
  confirmTransactions h s = Returned s' →
  confirmTransactions h' s' = Returned s'.
Proof.
  intros Hret. destruct (previewData s) as [batch|] eqn:Hbatch.
  - destruct (confirm_Returned h s s' batch Hbatch Hret) as (_ & _ & _ & _ & _ & Hnone).
    unfold confirmTransactions. rewrite Hnone. reflexivity.
  - unfold confirmTransactions in Hret. rewrite Hbatch in Hret. injection Hret as <-.
    unfold confirmTransactions. rewrite Hbatch. reflexivity.
Qed.

Lemma commit_twice_records_once_witness :
  ∃ s', confirmTransactions sampleHost stagedCoffee = Returned s' ∧
        confirmTransactions sampleHost s' = Returned s'.
Proof.
  destruct (confirmTransactions sampleHost stagedCoffee) as [s'|s'] eqn:Hret;
    [|vm_compute in Hret; discriminate].
  exists s'. split; [reflexivity|].
  apply (commit_twice_records_once sampleHost sampleHost stagedCoffee s' Hret).
Defined.

(** A second run of the transfer moves nothing more: the first run, when it
    moved funds, has emptied the form, and the guard stops the second. *)
Theorem transfer_twice_moves_once h h' s :
  handleTransfer h' (handleTransfer h s) = handleTransfer h s.
Proof.
  unfold handleTransfer at 2 3.
  destruct (filled (TransferData.from (transferData s))) as [from|] eqn:Hfrom;
    [|unfold handleTransfer; rewrite Hfrom; reflexivity].
  destruct (filled (TransferData.to (transferData s))) as [to|] eqn:Hto;
    [|unfold handleTransfer; rewrite Hfrom, Hto; reflexivity].
  destruct (filledAmount (TransferData.amount (transferData s))) as [A|] eqn:HA;
    [|unfold handleTransfer; rewrite Hfrom, Hto, HA; reflexivity].
  destruct (findAccount from (accounts s)) as [X|] eqn:HX;
    [|unfold handleTransfer; rewrite Hfrom, Hto, HA, HX; reflexivity].
  destruct (findAccount to (accounts s)) as [Y|] eqn:HY;
    [|unfold handleTransfer; rewrite Hfrom, Hto, HA, HX, HY; reflexivity].
  reflexivity.
Qed.
